(** * BikeHelmetRanking: the extraction and filter pipeline of [app.py]

    A shallow embedding of [fetch_bicycle_data], [filter_bicycle_data],
    [_item_matches_filters], [_check_threshold_filter], [print_results] and
    [main], together with the Python built-ins they call ([float], [str],
    [bool], [str.lower], [str.capitalize], [str.replace], [re.search],
    [re.sub], [json.loads], [list.sort]).

    Text is modelled over the code points U+0000..U+00FF: a value of type
    [ascii] is the code point of that number, and the character classes
    below are Python's classes restricted to that range.  Limits of the
    interpreter (recursion depth, the digit limit of integer conversion)
    are not modelled. *)

From Stdlib Require Import Bool Arith NArith ZArith List Lia.
From Stdlib Require Import Ascii String.
From Stdlib Require Import SpecFloat.
From Stdlib Require Import Permutation Sorted.
Import ListNotations.
Local Open Scope string_scope.

(** ** Characters and strings *)

Definition code (c : ascii) : N := N_of_ascii c.

Definition between (lo hi : N) (c : ascii) : bool :=
  ((lo <=? code c) && (code c <=? hi))%N.

Definition dquote : ascii := "034"%char.
Definition squote : ascii := "039"%char.
Definition backslash : ascii := "092"%char.

Definition is_digit (c : ascii) : bool := between 48 57 c.

(** [str.isspace] on one character, which is also the class [\s] of [re]. *)
Definition is_space (c : ascii) : bool :=
  between 9 13 c || between 28 32 c || (code c =? 133)%N || (code c =? 160)%N.

(** The C locale's [isspace] ([Py_ISSPACE]), used by [float] when it trims. *)
Definition is_c_space (c : ascii) : bool :=
  between 9 13 c || (code c =? 32)%N.

(** The class [\w] of [re] on [str] patterns: alphanumeric or underscore. *)
Definition is_word (c : ascii) : bool :=
  is_digit c || between 65 90 c || between 97 122 c || (code c =? 95)%N
  || (code c =? 170)%N || (code c =? 178)%N || (code c =? 179)%N
  || (code c =? 181)%N || (code c =? 185)%N || (code c =? 186)%N
  || between 188 190 c || between 192 214 c || between 216 246 c
  || between 248 255 c.

Definition lower_char (c : ascii) : ascii :=
  if between 65 90 c || (between 192 222 c && negb (code c =? 215)%N)
  then ascii_of_N (code c + 32) else c.

(** [str.lower] *)
Fixpoint lower (s : string) : string :=
  match s with
  | EmptyString => EmptyString
  | String c t => String (lower_char c) (lower t)
  end.

(** [s.replace(c, "")] for a one-character [c]. *)
Fixpoint remove_char (c : ascii) (s : string) : string :=
  match s with
  | EmptyString => EmptyString
  | String a t => if Ascii.eqb a c then remove_char c t
                  else String a (remove_char c t)
  end.

Fixpoint span (p : ascii -> bool) (s : string) : string * string :=
  match s with
  | EmptyString => (EmptyString, EmptyString)
  | String c t =>
      if p c then let '(a, b) := span p t in (String c a, b)
      else (EmptyString, s)
  end.

Fixpoint drop_while (p : ascii -> bool) (s : string) : string :=
  match s with
  | EmptyString => EmptyString
  | String c t => if p c then drop_while p t else s
  end.

Fixpoint forallb_str (p : ascii -> bool) (s : string) : bool :=
  match s with
  | EmptyString => true
  | String c t => p c && forallb_str p t
  end.

Fixpoint rev_str (acc s : string) : string :=
  match s with
  | EmptyString => acc
  | String c t => rev_str (String c acc) t
  end.

(** The first character of [s] satisfies [p]. *)
Definition starts_with (p : ascii -> bool) (s : string) : bool :=
  match s with
  | String c _ => p c
  | EmptyString => false
  end.

Definition is_empty (s : string) : bool :=
  match s with EmptyString => true | _ => false end.

(** [s] starts with [p]: the rest of [s] after [p], if so. *)
Fixpoint strip_prefix (p s : string) : option string :=
  match p, s with
  | EmptyString, _ => Some s
  | String a p', String b s' =>
      if Ascii.eqb a b then strip_prefix p' s' else None
  | String _ _, EmptyString => None
  end.

(** Value of a run of decimal digits, most significant first. *)
Fixpoint digits_value (acc : N) (s : string) : N :=
  match s with
  | EmptyString => acc
  | String c t => digits_value (10 * acc + (code c - 48)) t
  end.

(** Decimal numeral of a natural number, as [str(int)] prints it. *)
Fixpoint digits_of_pos_aux (fuel : nat) (n : N) (acc : string) : string :=
  match fuel with
  | O => acc
  | S f =>
      let acc' := String (ascii_of_N (48 + n mod 10)) acc in
      if (n / 10 =? 0)%N then acc' else digits_of_pos_aux f (n / 10) acc'
  end.

Definition digits_of_N (n : N) : string :=
  digits_of_pos_aux (S (N.to_nat (N.log2 n))) n EmptyString.

Definition str_of_Z (z : Z) : string :=
  match z with
  | Zneg p => String "-" (digits_of_N (Npos p))
  | _ => digits_of_N (Z.to_N z)
  end.

(** ** Floating-point numbers

    A Python [float] is an IEEE 754 binary64 value, here a [spec_float] with
    53 bits of precision; comparison is [SFcompare]. *)

Definition prec : Z := 53.
Definition emax : Z := 1024.

Definition float := spec_float.

Definition pos_inf : float := S754_infinity false.

Definition float_le (x y : float) : bool := SFleb x y.
Definition float_lt (x y : float) : bool := SFltb x y.
Definition float_eq (x y : float) : bool := SFeqb x y.

Definition is_nan (x : float) : bool :=
  match x with S754_nan => true | _ => false end.

(** The binary64 value nearest to [d * 10^e] (ties to even), where [d] has
    at most [len] decimal digits.  Beyond the range of binary64 the result
    is decided without computing the power of ten. *)
Definition float_of_decimal (neg : bool) (d : N) (len : nat) (e : Z) : float :=
  match d with
  | N0 => S754_zero neg
  | Npos p =>
      if (310 <=? e)%Z then S754_infinity neg
      else if (e + Z.of_nat len <=? -330)%Z then S754_zero neg
      else if (0 <=? e)%Z then
        binary_round prec emax neg (p * Z.to_pos (10 ^ e)) 0
      else
        let '(q, e', l) :=
          SFdiv_core_binary prec emax (Zpos p) 0 (10 ^ (- e)) 0 in
        binary_round_aux prec emax neg q e' l
  end.

(** [float(n)] for a Python [int]: [None] stands for [OverflowError]. *)
Definition float_of_Z (z : Z) : option float :=
  match binary_normalize prec emax z 0 false with
  | S754_infinity _ => None
  | f => Some f
  end.

Definition take_sign (s : string) : bool * string :=
  match s with
  | String "-" t => (true, t)
  | String "+" t => (false, t)
  | _ => (false, s)
  end.

(** [_Py_parse_inf_or_nan] after the sign. *)
Definition parse_inf_or_nan (neg : bool) (s : string) : option float :=
  let l := lower s in
  if String.eqb l "inf" || String.eqb l "infinity" then Some (S754_infinity neg)
  else if String.eqb l "nan" then Some S754_nan
  else None.

(** The exponent part: [EmptyString] is exponent 0, otherwise [e] or [E], an
    optional sign and at least one digit, up to the end of the text. *)
Definition parse_exponent (s : string) : option Z :=
  match s with
  | EmptyString => Some 0%Z
  | String c t =>
      if Ascii.eqb c "e" || Ascii.eqb c "E" then
        let '(neg, ds) := take_sign t in
        if negb (is_empty ds) && forallb_str is_digit ds then
          let v := Z.of_N (digits_value 0 ds) in
          Some (if neg then (- v)%Z else v)
        else None
      else None
  end.

(** [_Py_dg_strtod] on the whole of [s], with [_Py_parse_inf_or_nan] as its
    fallback. *)
Definition parse_float_text (s : string) : option float :=
  let '(neg, s1) := take_sign s in
  let '(ip, s2) := span is_digit s1 in
  let '(fp, s3) :=
    match s2 with
    | String "." t => span is_digit t
    | _ => (EmptyString, s2)
    end in
  if is_empty ip && is_empty fp then parse_inf_or_nan neg s1
  else
    match parse_exponent s3 with
    | Some ex =>
        let ds := ip ++ fp in
        Some (float_of_decimal neg (digits_value 0 ds) (String.length ds)
                (ex - Z.of_nat (String.length fp)))
    | None => None
    end.

(** [_PyUnicode_TransformDecimalAndSpaceToASCII]: beyond ASCII, whitespace
    becomes a space and any other character a question mark (no character
    of this range is a decimal digit). *)
Fixpoint to_ascii_space (s : string) : string :=
  match s with
  | EmptyString => EmptyString
  | String c t =>
      String (if (code c <? 128)%N then c
              else if is_space c then " "%char else "?"%char)
             (to_ascii_space t)
  end.

(** [_Py_string_to_number_with_underscores]: an underscore must stand
    between two digits; [prev] is the previous character. *)
Fixpoint strip_underscores (prev : ascii) (s : string) : option string :=
  match s with
  | EmptyString => if Ascii.eqb prev "_" then None else Some EmptyString
  | String c t =>
      if Ascii.eqb c "_" then
        if is_digit prev then strip_underscores c t else None
      else if Ascii.eqb prev "_" && negb (is_digit c) then None
      else option_map (String c) (strip_underscores c t)
  end.

Definition trim_c_space (s : string) : string :=
  rev_str EmptyString
    (drop_while is_c_space (rev_str EmptyString (drop_while is_c_space s))).

(** [float(s)] for a [str]: [None] stands for [ValueError]. *)
Definition float_of_string (s : string) : option float :=
  match strip_underscores "000"%char (to_ascii_space s) with
  | Some u => parse_float_text (trim_c_space u)
  | None => None
  end.

(** *** [repr] of a float

    [float_repr] is the shortest decimal numeral that [float] reads back as
    the same value, nearest to it among the shortest (David Gay's mode 0),
    laid out as [repr] does: fixed notation when the decimal point position
    is in [-3, 16], scientific notation otherwise. *)

(** [num/den < 10^k] *)
Definition lt_pow10 (num den k : Z) : bool :=
  if (0 <=? k)%Z then (num <? 10 ^ k * den)%Z
  else (num * 10 ^ (- k) <? den)%Z.

Fixpoint find_decpt (fuel : nat) (num den k : Z) : Z :=
  match fuel with
  | O => k
  | S f => if lt_pow10 num den k then k else find_decpt f num den (k + 1)
  end.

(** The least [k] with [num/den < 10^k], for a positive value of [bits]
    binary digits before the point. *)
Definition decimal_point (num den bits : Z) : Z :=
  find_decpt 8 num den (((bits - 1) * 30103) / 100000 - 1).

Fixpoint strip_zeros_rev (s : string) : string :=
  match s with
  | String "0" t => strip_zeros_rev t
  | _ => s
  end.

Definition strip_trailing_zeros (s : string) : string :=
  rev_str EmptyString (strip_zeros_rev (rev_str EmptyString s)).

(** The candidate with [n] significant digits, if one reads back as [x]:
    its digits without trailing zeros and the position of its point. *)
Definition digits_candidate (x : float) (num den k : Z) (n : nat)
  : option (string * Z) :=
  let sh := (k - Z.of_nat n)%Z in
  let '(a, b) := if (0 <=? sh)%Z then (num, den * 10 ^ sh)%Z
                 else (num * 10 ^ (- sh), den)%Z in
  let lo := (a / b)%Z in
  let r := (a mod b)%Z in
  let hi := (lo + 1)%Z in
  let reads d :=
    float_eq (float_of_decimal false (Z.to_N d) (S n) sh) x in
  let pick d :=
    let ds := digits_of_N (Z.to_N d) in
    Some (strip_trailing_zeros ds, (sh + Z.of_nat (String.length ds))%Z) in
  let up := match (2 * r ?= b)%Z with
            | Gt => true
            | Eq => Z.odd lo
            | Lt => false
            end in
  match reads lo && (0 <? lo)%Z, reads hi with
  | true, true => pick (if up then hi else lo)
  | true, false => pick lo
  | false, true => pick hi
  | false, false => None
  end.

Fixpoint shortest_digits (fuel : nat) (x : float) (num den k : Z) (n : nat)
  : string * Z :=
  match fuel with
  | O => (EmptyString, k)
  | S f =>
      match digits_candidate x num den k n with
      | Some r => r
      | None => shortest_digits f x num den k (S n)
      end
  end.

Definition float_digits (m : positive) (e : Z) : string * Z :=
  let '(num, den) := if (0 <=? e)%Z then (Zpos m * 2 ^ e, 1)%Z
                     else (Zpos m, 2 ^ (- e))%Z in
  let k := decimal_point num den (Zpos (digits2_pos m) + e) in
  shortest_digits 17 (S754_finite false m e) num den k 1.

Fixpoint zeros (n : nat) : string :=
  match n with
  | O => EmptyString
  | S k => String "0" (zeros k)
  end.

Fixpoint take_str (n : nat) (s : string) : string :=
  match n, s with
  | S k, String c t => String c (take_str k t)
  | _, _ => EmptyString
  end.

Fixpoint drop_str (n : nat) (s : string) : string :=
  match n, s with
  | S k, String _ t => drop_str k t
  | _, _ => s
  end.

Definition format_repr (ds : string) (decpt : Z) : string :=
  let n := Z.of_nat (String.length ds) in
  if (decpt <=? -4)%Z || (16 <? decpt)%Z then
    let ex := (decpt - 1)%Z in
    let mant := match ds with
                | String c EmptyString => ds
                | String c t => String c (String "." t)
                | EmptyString => ds
                end in
    let exs := digits_of_N (Z.to_N (Z.abs ex)) in
    mant ++ "e" ++ (if (ex <? 0)%Z then "-" else "+")
         ++ (if (Z.abs ex <? 10)%Z then "0" else EmptyString) ++ exs
  else if (decpt <=? 0)%Z then
    "0." ++ zeros (Z.to_nat (- decpt)) ++ ds
  else if (n <=? decpt)%Z then
    ds ++ zeros (Z.to_nat (decpt - n)) ++ ".0"
  else
    take_str (Z.to_nat decpt) ds ++ "." ++ drop_str (Z.to_nat decpt) ds.

Definition float_repr (x : float) : string :=
  match x with
  | S754_nan => "nan"
  | S754_infinity s => if s then "-inf" else "inf"
  | S754_zero s => if s then "-0.0" else "0.0"
  | S754_finite s m e =>
      let '(ds, decpt) := float_digits m e in
      (if s then "-" else EmptyString) ++ format_repr ds decpt
  end.

(** *** [repr] of a string *)

Fixpoint count_char (c : ascii) (s : string) : nat :=
  match s with
  | EmptyString => O
  | String a t => (if Ascii.eqb a c then 1 else 0) + count_char c t
  end.

Definition hex_digit (n : N) : ascii :=
  if (n <? 10)%N then ascii_of_N (48 + n) else ascii_of_N (87 + n).

(** [str.isprintable] on one character. *)
Definition is_printable (c : ascii) : bool :=
  between 32 126 c || (between 161 255 c && negb (code c =? 173)%N).

Definition repr_char (q c : ascii) : string :=
  if Ascii.eqb c q || Ascii.eqb c backslash then String backslash (String c EmptyString)
  else if (code c =? 9)%N then String backslash "t"
  else if (code c =? 10)%N then String backslash "n"
  else if (code c =? 13)%N then String backslash "r"
  else if is_printable c then String c EmptyString
  else String backslash
         (String "x" (String (hex_digit (code c / 16))
                        (String (hex_digit (code c mod 16)) EmptyString))).

Fixpoint repr_chars (q : ascii) (s : string) : string :=
  match s with
  | EmptyString => EmptyString
  | String c t => repr_char q c ++ repr_chars q t
  end.

Definition str_repr (s : string) : string :=
  let q := if (0 <? count_char squote s)%nat && (count_char dquote s =? 0)%nat
           then dquote else squote in
  String q (repr_chars q s ++ String q EmptyString).

(** ** Python values *)

#[warnings="-register-all"] Inductive value : Type :=
| VNone
| VBool (b : bool)
| VInt (z : Z)
| VFloat (f : float)
| VStr (s : string)
| VList (l : list value)
| VDict (d : list (string * value)).

(** A record of the dataset: a [dict] with [str] keys, in insertion order. *)
Definition record := list (string * value).

Fixpoint join (sep : string) (l : list string) : string :=
  match l with
  | [] => EmptyString
  | [x] => x
  | x :: t => x ++ sep ++ join sep t
  end.

Fixpoint py_repr (v : value) : string :=
  match v with
  | VNone => "None"
  | VBool b => if b then "True" else "False"
  | VInt z => str_of_Z z
  | VFloat f => float_repr f
  | VStr s => str_repr s
  | VList l => "[" ++ join ", " (map py_repr l) ++ "]"
  | VDict d =>
      "{" ++ join ", " (map (fun kv => str_repr (fst kv) ++ ": " ++ py_repr (snd kv)) d)
          ++ "}"
  end.

(** [str(v)] *)
Definition py_str (v : value) : string :=
  match v with
  | VStr s => s
  | _ => py_repr v
  end.

(** ** Exceptions and logging

    A computation returns a value or raises, and leaves the records it sent
    to the module's [logger] in the order they were emitted.
    [BicycleDataError msg cause] carries the literal part of its message and
    the exception formatted after it.  [OutsideLatin1] is not a Python
    exception: it marks a text that denotes a character beyond U+00FF, about
    which this development says nothing. *)

#[warnings="-register-all"] Inductive exn : Type :=
| ValueError
| TypeError
| OverflowError
| JSONDecodeError (msg : string) (pos : nat)
| RequestException
| RecursionError
| OutsideLatin1
| BicycleDataError (msg : string) (cause : option exn).

(** [isinstance(e, (ValueError, TypeError))]; [json.JSONDecodeError] is a
    subclass of [ValueError]. *)
Definition is_value_or_type_error (e : exn) : bool :=
  match e with
  | ValueError | TypeError | JSONDecodeError _ _ => true
  | _ => false
  end.

Definition is_json_decode_error (e : exn) : bool :=
  match e with
  | JSONDecodeError _ _ => true
  | _ => false
  end.

Definition is_request_exception (e : exn) : bool :=
  match e with
  | RequestException => true
  | _ => false
  end.

Inductive level : Type := INFO | WARNING | ERROR.

Definition log_record : Type := level * string.

Inductive outcome (A : Type) : Type :=
| Return (a : A)
| Raise (e : exn).
Arguments Return {A} a.
Arguments Raise {A} e.

Definition M (A : Type) : Type := list log_record * outcome A.

Definition ret {A} (a : A) : M A := ([], Return a).
Definition raise {A} (e : exn) : M A := ([], Raise e).
Definition emit (l : level) (msg : string) : M unit := ([(l, msg)], Return tt).

Definition bind {A B} (m : M A) (k : A -> M B) : M B :=
  match m with
  | (l, Return a) => let '(l', r) := k a in ((l ++ l')%list, r)
  | (l, Raise e) => (l, Raise e)
  end.

Notation "x <- m ;; k" := (bind m (fun x => k))
  (at level 61, m at next level, right associativity).
Notation "m ;;; k" := (bind m (fun _ => k))
  (at level 61, right associativity).

(** [try: m except C1: h1 except C2: h2 ...]: when [m] raises, the first
    clause whose class test accepts the exception runs its handler. *)
Definition clause (A : Type) : Type := (exn -> bool) * (exn -> M A).

Fixpoint find_handler {A} (e : exn) (clauses : list (clause A)) : option (M A) :=
  match clauses with
  | [] => None
  | (handles, h) :: rest => if handles e then Some (h e) else find_handler e rest
  end.

Definition try_except {A} (m : M A) (clauses : list (clause A)) : M A :=
  match m with
  | (l, Raise e) =>
      match find_handler e clauses with
      | Some (l', r) => ((l ++ l')%list, r)
      | None => (l, Raise e)
      end
  | _ => m
  end.

Definition lift {A} (o : option A) (e : exn) : M A :=
  match o with
  | Some a => ret a
  | None => raise e
  end.

(** [float(v)] *)
Definition py_float (v : value) : M float :=
  match v with
  | VStr s => lift (float_of_string s) ValueError
  | VInt z => lift (float_of_Z z) OverflowError
  | VFloat f => ret f
  | VBool b => ret (binary_normalize prec emax (if b then 1 else 0) 0 false)
  | VNone | VList _ | VDict _ => raise TypeError
  end.

(** ** The filter evaluator *)

Definition MAX_THRESHOLD_FIELDS : list string := ["cost"; "score"].

Definition mem_str (s : string) (l : list string) : bool :=
  existsb (String.eqb s) l.

(** [d.get(k)] on a [dict] with [str] keys. *)
Fixpoint dict_get (k : string) (d : list (string * value)) : option value :=
  match d with
  | [] => None
  | (k', v) :: t => if String.eqb k k' then Some v else dict_get k t
  end.

(** The number of the item in a threshold comparison: for the cost, what
    is left of its text without dollar signs. *)
Definition item_number (field : string) (item_value : value) : M float :=
  if String.eqb field "cost"
  then py_float (VStr (remove_char "$" (py_str item_value)))
  else py_float item_value.

Definition _check_threshold_filter
    (item_value filter_value : value) (field : string) : M bool :=
  try_except
    (item_val <- item_number field item_value ;;
     max_val <- py_float filter_value ;;
     ret (float_le item_val max_val))
    [(is_value_or_type_error,
      fun _ =>
        emit WARNING
          ("Failed to convert " ++ field ++ " values: item=" ++ py_str item_value
             ++ ", filter=" ++ py_str filter_value) ;;;
        ret false)].

Fixpoint _item_matches_filters (item : record) (filters : list (string * value))
  : M bool :=
  match filters with
  | [] => ret true
  | (field, value) :: rest =>
      match dict_get field item with
      | None => ret false
      | Some item_value =>
          if mem_str field MAX_THRESHOLD_FIELDS then
            ok <- _check_threshold_filter item_value value field ;;
            if ok then _item_matches_filters item rest else ret false
          else
            if String.eqb (lower (py_str item_value)) (lower (py_str value))
            then _item_matches_filters item rest
            else ret false
      end
  end.

(** The loop that collects the matching items, in order. *)
Fixpoint collect_matches (data : list record) (filters : list (string * value))
  : M (list record) :=
  match data with
  | [] => ret []
  | item :: rest =>
      ok <- _item_matches_filters item filters ;;
      tl <- collect_matches rest filters ;;
      ret (if ok then item :: tl else tl)
  end.

(** The sort key [float(x.get("score", float("inf")))]. *)
Definition score_key (x : record) : M float :=
  match dict_get "score" x with
  | Some v => py_float v
  | None => ret pos_inf
  end.

Fixpoint keyed (l : list record) : M (list (float * record)) :=
  match l with
  | [] => ret []
  | x :: t =>
      k <- score_key x ;;
      kt <- keyed t ;;
      ret ((k, x) :: kt)
  end.

(** [list.sort(key=...)] computes every key first and then sorts stably by
    [<] on the keys.  The stable insertion sort below returns what
    [list.sort] returns whenever [<] orders the keys, that is when no key
    is NaN. *)
Fixpoint insert_by_key {A} (x : float * A) (l : list (float * A))
  : list (float * A) :=
  match l with
  | [] => [x]
  | y :: t => if float_lt (fst y) (fst x) then y :: insert_by_key x t
              else x :: l
  end.

Definition sort_by_key {A} (l : list (float * A)) : list (float * A) :=
  fold_right insert_by_key [] l.

Definition str_of_nat (n : nat) : string := digits_of_N (N.of_nat n).

(** The body of the [try] statement of [filter_bicycle_data]. *)
Definition filter_try (data : list record) (filters : list (string * value))
  : M (list record) :=
  filtered_data <- collect_matches data filters ;;
  ks <- keyed filtered_data ;;
  let sorted := map snd (sort_by_key ks) in
  emit INFO ("Filtered " ++ str_of_nat (List.length data)
               ++ " items down to " ++ str_of_nat (List.length sorted)
               ++ " items") ;;;
  ret sorted.

Definition filter_bicycle_data (data : list record) (filters : list (string * value))
  : M (list record) :=
  match data with
  | [] => emit WARNING "No data provided for filtering" ;;; ret []
  | _ =>
      try_except (filter_try data filters)
        [(fun _ => true,
          fun e => raise (BicycleDataError "Failed to filter data: " (Some e)))]
  end.

(** ** Regular expressions

    The fragment of [re] the program uses: literals, a one-character class
    repeated greedily or lazily, one capturing group, a lookahead, and
    concatenation.  [rmatch] is a backtracking matcher in continuation
    style: [k] receives the rest of the text and the text of the group. *)

Inductive regex : Type :=
| Lit (s : string)
| Rep (cls : ascii -> bool) (min : nat) (greedy : bool)
| Grp (r : regex)
| Ahead (r : regex)
| Cat (r1 r2 : regex).

Fixpoint rep_greedy {R} (cls : ascii -> bool) (min : nat) (s : string)
    (k : string -> option R) : option R :=
  let stop := match min with O => k s | S _ => None end in
  match s with
  | String c t =>
      if cls c then
        match rep_greedy cls (pred min) t k with
        | Some r => Some r
        | None => stop
        end
      else stop
  | EmptyString => stop
  end.

Fixpoint rep_lazy {R} (cls : ascii -> bool) (min : nat) (s : string)
    (k : string -> option R) : option R :=
  match (match min with O => k s | S _ => None end) with
  | Some r => Some r
  | None =>
      match s with
      | String c t => if cls c then rep_lazy cls (pred min) t k else None
      | EmptyString => None
      end
  end.

Fixpoint rmatch {R} (r : regex) (s : string) (g : option string)
    (k : string -> option string -> option R) {struct r} : option R :=
  match r with
  | Lit l =>
      match strip_prefix l s with
      | Some s' => k s' g
      | None => None
      end
  | Rep cls min greedy =>
      if greedy then rep_greedy cls min s (fun s' => k s' g)
      else rep_lazy cls min s (fun s' => k s' g)
  | Grp r1 =>
      rmatch r1 s g
        (fun s' _ => k s' (Some (take_str (String.length s - String.length s') s)))
  | Ahead r1 =>
      match rmatch r1 s g (fun _ g' => Some g') with
      | Some g' => k s g'
      | None => None
      end
  | Cat r1 r2 => rmatch r1 s g (fun s' g' => rmatch r2 s' g' k)
  end.

(** A match anchored at the start of [s]: the rest of the text after the
    match, and group 1. *)
Definition match_here (r : regex) (s : string) : option (string * option string) :=
  rmatch r s None (fun s' g => Some (s', g)).

(** [re.search(r, s)], reduced to [match.group(1)] of the leftmost match. *)
Fixpoint re_search (r : regex) (s : string) : option (option string) :=
  match match_here r s with
  | Some (_, g) => Some g
  | None =>
      match s with
      | String _ t => re_search r t
      | EmptyString => None
      end
  end.

(** [re.sub(r, repl, s)]: matches are found left to right and do not
    overlap; [skip] counts the characters left in the current match.  An
    empty match is replaced too, and the scan then moves on by one
    character. *)
Fixpoint re_sub_aux (r : regex) (repl : option string -> string)
    (skip : nat) (s : string) {struct s} : string :=
  match skip with
  | S n =>
      match s with
      | String _ t => re_sub_aux r repl n t
      | EmptyString => EmptyString
      end
  | O =>
      match match_here r s with
      | Some (s', g) =>
          repl g ++
          match s with
          | String c t =>
              match String.length s - String.length s' with
              | O => String c (re_sub_aux r repl 0 t)
              | S n => re_sub_aux r repl n t
              end
          | EmptyString => EmptyString
          end
      | None =>
          match s with
          | String c t => String c (re_sub_aux r repl 0 t)
          | EmptyString => EmptyString
          end
      end
  end.

Definition re_sub (r : regex) (repl : option string -> string) (s : string) : string :=
  re_sub_aux r repl 0 s.

Infix "+++" := Cat (at level 60, right associativity).

Definition any_char (c : ascii) : bool := true.
Definition not_squote (c : ascii) : bool := negb (Ascii.eqb c squote).

(** The pattern [const\s+bicycleDataRaw\s*=\s*(\[.*?\]);] under [re.DOTALL],
    where the dot matches every character. *)
Definition array_pattern : regex :=
  Lit "const" +++ Rep is_space 1 true +++ Lit "bicycleDataRaw"
  +++ Rep is_space 0 true +++ Lit "=" +++ Rep is_space 0 true
  +++ Grp (Lit "[" +++ Rep any_char 0 false +++ Lit "]") +++ Lit ";".

(** The pattern [(\w+)(?=\s*:)]: a run of word characters, captured, that
    is followed by optional whitespace and a colon. *)
Definition key_pattern : regex :=
  Grp (Rep is_word 1 true) +++ Ahead (Rep is_space 0 true +++ Lit ":").

(** The pattern of a single-quoted string: a single quote, a captured run of
    characters other than the single quote, a single quote. *)
Definition quote_pattern : regex :=
  Lit "'" +++ Grp (Rep not_squote 0 true) +++ Lit "'".

(** The replacement template: group 1 between two double quotes. *)
Definition in_dquotes (g : option string) : string :=
  String dquote
    (match g with Some t => t | None => EmptyString end ++ String dquote EmptyString).

(** The two textual repairs of [fetch_bicycle_data], in its order. *)
Definition quote_keys (s : string) : string := re_sub key_pattern in_dquotes s.
Definition requote_strings (s : string) : string := re_sub quote_pattern in_dquotes s.
Definition repair (array_text : string) : string :=
  requote_strings (quote_keys array_text).

(** ** [json.loads]

    A recursive-descent decoder after CPython's [json.decoder] and
    [json.scanner].  A parser returns the value and the rest of the text;
    a failure records how many characters were left at the reported
    position.  [depth] bounds the nesting and [fuel] the number of items of
    one container; [json_loads] provides both from the length of the text. *)

Inductive jres (A : Type) : Type :=
| JOk (a : A) (rest : string)
| JFail (msg : string) (remaining : nat)
| JNotLatin1
| JTooDeep.
Arguments JOk {A} a rest.
Arguments JFail {A} msg remaining.
Arguments JNotLatin1 {A}.
Arguments JTooDeep {A}.

Definition jmap {A B} (f : A -> B) (r : jres A) : jres B :=
  match r with
  | JOk a rest => JOk (f a) rest
  | JFail msg n => JFail msg n
  | JNotLatin1 => JNotLatin1
  | JTooDeep => JTooDeep
  end.

Definition is_json_ws (c : ascii) : bool :=
  (code c =? 32)%N || (code c =? 9)%N || (code c =? 10)%N || (code c =? 13)%N.

Definition skip_ws (s : string) : string := drop_while is_json_ws s.

Definition hex_value (c : ascii) : option N :=
  if is_digit c then Some (code c - 48)%N
  else if between 97 102 c then Some (code c - 87)%N
  else if between 65 70 c then Some (code c - 55)%N
  else None.

Definition hex4 (a b c d : ascii) : option N :=
  match hex_value a, hex_value b, hex_value c, hex_value d with
  | Some x, Some y, Some z, Some w => Some (((x * 16 + y) * 16 + z) * 16 + w)%N
  | _, _, _, _ => None
  end.

(** The table [BACKSLASH] of one-letter escapes. *)
Definition unescape (e : ascii) : option ascii :=
  if Ascii.eqb e dquote then Some dquote
  else if Ascii.eqb e backslash then Some backslash
  else if Ascii.eqb e "/" then Some "/"%char
  else if Ascii.eqb e "b" then Some "008"%char
  else if Ascii.eqb e "f" then Some "012"%char
  else if Ascii.eqb e "n" then Some "010"%char
  else if Ascii.eqb e "r" then Some "013"%char
  else if Ascii.eqb e "t" then Some "009"%char
  else None.

(** [scanstring] in strict mode, from the character after the opening quote;
    [begin] locates that quote. *)
Fixpoint scanstring (begin : nat) (s : string) : jres string :=
  match s with
  | EmptyString => JFail "Unterminated string starting at" begin
  | String c t =>
      if Ascii.eqb c dquote then JOk EmptyString t
      else if Ascii.eqb c backslash then
        match t with
        | EmptyString => JFail "Unterminated string starting at" begin
        | String e t' =>
            if Ascii.eqb e "u" then
              match t' with
              | String h1 (String h2 (String h3 (String h4 t''))) =>
                  match hex4 h1 h2 h3 h4 with
                  | Some n =>
                      if (n <? 256)%N
                      then jmap (String (ascii_of_N n)) (scanstring begin t'')
                      else JNotLatin1
                  | None => JFail "Invalid \uXXXX escape" (String.length s)
                  end
              | _ => JFail "Invalid \uXXXX escape" (String.length s)
              end
            else
              match unescape e with
              | Some ch => jmap (String ch) (scanstring begin t')
              | None => JFail "Invalid \escape" (String.length s)
              end
        end
      else if (code c <? 32)%N then
        JFail "Invalid control character at" (String.length s)
      else jmap (String c) (scanstring begin t)
  end.

(** [NUMBER_RE]: the integer part, the fraction and the exponent. *)
Definition scan_int (s : string) : option (bool * string * string) :=
  let '(neg, s1) := match s with
                    | String c t => if Ascii.eqb c "-" then (true, t) else (false, s)
                    | EmptyString => (false, s)
                    end in
  match s1 with
  | String c t =>
      if Ascii.eqb c "0" then Some (neg, "0", t)
      else if between 49 57 c then
        let '(ds, r) := span is_digit s1 in Some (neg, ds, r)
      else None
  | EmptyString => None
  end.

Definition scan_frac (s : string) : string * string :=
  match s with
  | String c t =>
      if Ascii.eqb c "." then
        let '(ds, r) := span is_digit t in
        if is_empty ds then (EmptyString, s) else (ds, r)
      else (EmptyString, s)
  | EmptyString => (EmptyString, s)
  end.

Definition scan_exp (s : string) : option Z * string :=
  match s with
  | String c t =>
      if Ascii.eqb c "e" || Ascii.eqb c "E" then
        let '(neg, t1) := take_sign t in
        let '(ds, r) := span is_digit t1 in
        if is_empty ds then (None, s)
        else
          let v := Z.of_N (digits_value 0 ds) in
          (Some (if neg then (- v)%Z else v), r)
      else (None, s)
  | EmptyString => (None, s)
  end.

(** A number: an [int] when it has neither fraction nor exponent, a [float]
    otherwise. *)
Definition scan_number (s : string) : option (value * string) :=
  match scan_int s with
  | None => None
  | Some (neg, ip, r1) =>
      let '(fp, r2) := scan_frac r1 in
      let '(ex, r3) := scan_exp r2 in
      match fp, ex with
      | EmptyString, None =>
          let v := Z.of_N (digits_value 0 ip) in
          Some (VInt (if neg then (- v)%Z else v), r3)
      | _, _ =>
          let ds := ip ++ fp in
          let e := match ex with Some e => e | None => 0%Z end in
          Some (VFloat (float_of_decimal neg (digits_value 0 ds) (String.length ds)
                          (e - Z.of_nat (String.length fp))), r3)
      end
  end.

(** [d[k] = v] *)
Fixpoint dict_set (k : string) (v : value) (d : list (string * value))
  : list (string * value) :=
  match d with
  | [] => [(k, v)]
  | (k', v') :: t =>
      if String.eqb k k' then (k, v) :: t else (k', v') :: dict_set k v t
  end.

(** [dict(pairs)] *)
Definition dict_of_pairs (pairs : list (string * value)) : list (string * value) :=
  fold_left (fun d kv => dict_set (fst kv) (snd kv) d) pairs [].

(** The loop of [JSONArray]; [acc] holds the values read so far, last
    first. *)
Fixpoint array_items (scan : string -> jres value) (fuel : nat)
    (acc : list value) (s : string) : jres value :=
  match fuel with
  | O => JTooDeep
  | S f =>
      match scan s with
      | JOk v r =>
          match skip_ws r with
          | String c t =>
              if Ascii.eqb c "]" then JOk (VList (rev (v :: acc))) t
              else if Ascii.eqb c "," then array_items scan f (v :: acc) (skip_ws t)
              else JFail "Expecting ',' delimiter" (String.length (skip_ws r))
          | EmptyString => JFail "Expecting ',' delimiter" 0
          end
      | JFail msg n => JFail msg n
      | JNotLatin1 => JNotLatin1
      | JTooDeep => JTooDeep
      end
  end.

Definition JSONArray (scan : string -> jres value) (s : string) : jres value :=
  match skip_ws s with
  | String c t =>
      if Ascii.eqb c "]" then JOk (VList []) t
      else array_items scan (S (String.length (skip_ws s))) [] (skip_ws s)
  | EmptyString => array_items scan 1 [] EmptyString
  end.

(** The loop of [JSONObject], from the character after the opening quote of
    a key; [begin] locates that quote. *)
Fixpoint object_members (scan : string -> jres value) (fuel : nat)
    (pairs : list (string * value)) (begin : nat) (s : string) : jres value :=
  match fuel with
  | O => JTooDeep
  | S f =>
      match scanstring begin s with
      | JOk key r =>
          match skip_ws r with
          | String c0 r1 =>
              if negb (Ascii.eqb c0 ":") then
                JFail "Expecting ':' delimiter" (String.length (skip_ws r))
              else
              match scan (skip_ws r1) with
              | JOk v r2 =>
                  match skip_ws r2 with
                  | String c t =>
                      if Ascii.eqb c "}" then
                        JOk (VDict (dict_of_pairs (rev ((key, v) :: pairs)))) t
                      else if Ascii.eqb c "," then
                        match skip_ws t with
                        | String q t' =>
                            if Ascii.eqb q dquote then
                              object_members scan f ((key, v) :: pairs)
                                (String.length (skip_ws t)) t'
                            else
                              JFail "Expecting property name enclosed in double quotes"
                                (String.length (skip_ws t))
                        | EmptyString =>
                            JFail "Expecting property name enclosed in double quotes" 0
                        end
                      else JFail "Expecting ',' delimiter" (String.length (skip_ws r2))
                  | EmptyString => JFail "Expecting ',' delimiter" 0
                  end
              | JFail msg n => JFail msg n
              | JNotLatin1 => JNotLatin1
              | JTooDeep => JTooDeep
              end
          | EmptyString => JFail "Expecting ':' delimiter" 0
          end
      | JFail msg n => JFail msg n
      | JNotLatin1 => JNotLatin1
      | JTooDeep => JTooDeep
      end
  end.

Definition JSONObject (scan : string -> jres value) (s : string) : jres value :=
  match skip_ws s with
  | String c t =>
      if Ascii.eqb c "}" then JOk (VDict []) t
      else if Ascii.eqb c dquote then
        object_members scan (S (String.length t)) [] (String.length (skip_ws s)) t
      else JFail "Expecting property name enclosed in double quotes"
             (String.length (skip_ws s))
  | EmptyString => JFail "Expecting property name enclosed in double quotes" 0
  end.

Definition scan_literal (s : string) : option (value * string) :=
  match strip_prefix "null" s with
  | Some r => Some (VNone, r)
  | None =>
  match strip_prefix "true" s with
  | Some r => Some (VBool true, r)
  | None =>
  match strip_prefix "false" s with
  | Some r => Some (VBool false, r)
  | None =>
  match scan_number s with
  | Some vr => Some vr
  | None =>
  match strip_prefix "NaN" s with
  | Some r => Some (VFloat S754_nan, r)
  | None =>
  match strip_prefix "Infinity" s with
  | Some r => Some (VFloat (S754_infinity false), r)
  | None =>
  match strip_prefix "-Infinity" s with
  | Some r => Some (VFloat (S754_infinity true), r)
  | None => None
  end end end end end end end.

(** [scan_once] at the start of [s]. *)
Fixpoint scan_once (depth : nat) (s : string) {struct depth} : jres value :=
  match depth with
  | O => JTooDeep
  | S d =>
      match s with
      | EmptyString => JFail "Expecting value" 0
      | String c t =>
          if Ascii.eqb c dquote then jmap VStr (scanstring (String.length s) t)
          else if Ascii.eqb c "{" then JSONObject (scan_once d) t
          else if Ascii.eqb c "[" then JSONArray (scan_once d) t
          else
            match scan_literal s with
            | Some (v, r) => JOk v r
            | None => JFail "Expecting value" (String.length s)
            end
      end
  end.

(** [json.loads(s)]: one value between optional whitespace. *)
Definition json_loads (s : string) : M value :=
  let n := String.length s in
  match scan_once (S n) (skip_ws s) with
  | JOk v r =>
      match skip_ws r with
      | EmptyString => ret v
      | r' => raise (JSONDecodeError "Extra data" (n - String.length r'))
      end
  | JFail msg k => raise (JSONDecodeError msg (n - k))
  | JNotLatin1 => raise OutsideLatin1
  | JTooDeep => raise RecursionError
  end.

(** ** The extractor *)

(** [len(v)] *)
Definition py_len (v : value) : M nat :=
  match v with
  | VList l => ret (List.length l)
  | VDict d => ret (List.length d)
  | VStr s => ret (String.length s)
  | _ => raise TypeError
  end.

(** [fetch_bicycle_data(url)].  The call [requests.get(url, timeout=TIMEOUT)]
    followed by [raise_for_status()] is the world's answer [response]: the
    text of the body, or an exception of class [RequestException]. *)
Definition fetch_bicycle_data (url : string) (response : outcome string) : M value :=
  try_except
    (emit INFO ("Fetching data from " ++ url) ;;;
     js_code <- ([], response) ;;
     match re_search array_pattern js_code with
     | None => raise (BicycleDataError "Could not find bicycleDataRaw in JS response" None)
     | Some group1 =>
         array_text <- lift group1 TypeError ;;
         let json_text := array_text in
         let json_text := re_sub key_pattern in_dquotes json_text in
         let json_text := re_sub quote_pattern in_dquotes json_text in
         data <- json_loads json_text ;;
         n <- py_len data ;;
         emit INFO ("Successfully fetched " ++ str_of_nat n ++ " helmet records") ;;;
         ret data
     end)
    [(is_request_exception,
      fun e => raise (BicycleDataError "Failed to fetch data: " (Some e)));
     (is_json_decode_error,
      fun e => raise (BicycleDataError "Failed to parse JSON: " (Some e)))].

Definition URL : string := "https://www.helmet.beam.vt.edu/js/bicycleData.js".

(** ** The report

    [print_results] writes to the standard output.  A report is the list of
    the texts handed to [print], in order; on the output each of them is
    followed by a line feed; the output is taken to accept every
    character.  Formatting a value in an f-string without a format
    specification gives its [str]. *)

Definition newline : ascii := "010"%char.

(** [c * n] for a one-character [c]. *)
Fixpoint repeat_char (c : ascii) (n : nat) : string :=
  match n with
  | O => EmptyString
  | S m => String c (repeat_char c m)
  end.

(** [bool(v)] *)
Definition truthy (v : value) : bool :=
  match v with
  | VNone => false
  | VBool b => b
  | VInt z => negb (z =? 0)%Z
  | VFloat f => negb (float_eq f (S754_zero false))
  | VStr s => negb (is_empty s)
  | VList l => match l with [] => false | _ => true end
  | VDict d => match d with [] => false | _ => true end
  end.

(** The title case of one character, which [str.capitalize] gives to the
    first character (Python 3.8 and later): the sharp s becomes two
    letters, and the micro sign and the y with diaeresis leave the range
    U+0000..U+00FF, which is [None] here. *)
Definition title_char (c : ascii) : option string :=
  if between 97 122 c || (between 224 254 c && negb (code c =? 247)%N)
  then Some (String (ascii_of_N (code c - 32)) EmptyString)
  else if (code c =? 223)%N then Some "Ss"
  else if (code c =? 181)%N || (code c =? 255)%N then None
  else Some (String c EmptyString).

(** [str.capitalize] *)
Definition capitalize (s : string) : option string :=
  match s with
  | EmptyString => Some EmptyString
  | String c t =>
      match title_char c with
      | Some u => Some (u ++ lower t)
      | None => None
      end
  end.

(** [item.get(key, default)] as an f-string shows it. *)
Definition get_text (item : record) (key default : string) : string :=
  match dict_get key item with
  | Some v => py_str v
  | None => default
  end.

(** The body of the loop over the records: what is printed for the record
    numbered [i]. *)
Definition print_item (i : nat) (item : record) : list string :=
  String newline (str_of_nat i ++ ". " ++ get_text item "brand" "Unknown"
                    ++ " - " ++ get_text item "model" "Unknown")
  :: ("   Score: " ++ get_text item "score" "N/A"
        ++ " | Cost: " ++ get_text item "cost" "N/A"
        ++ " | Style: " ++ get_text item "style" "N/A")
  :: ("   Rating: " ++ get_text item "rating" "N/A"
        ++ " stars | Date: " ++ get_text item "date" "N/A")
  :: List.app
       match dict_get "certifications" item with
       | Some v => if truthy v then ["   Certifications: " ++ py_str v] else []
       | None => []
       end
       [repeat_char "-" 60].

(** The loop [for i, item in enumerate(filtered_data, 1)], from number [i]. *)
Fixpoint print_items (i : nat) (l : list record) : list string :=
  match l with
  | [] => []
  | item :: t => List.app (print_item i item) (print_items (S i) t)
  end.

(** The line of the summary for one entry of the filter mapping. *)
Definition summary_line (entry : string * value) : option string :=
  let '(key, value) := entry in
  match capitalize key with
  | Some k =>
      Some (if mem_str key MAX_THRESHOLD_FIELDS
            then "Maximum " ++ k ++ ": " ++ py_str value
            else k ++ ": " ++ py_str value)
  | None => None
  end.

(** The loop [for key, value in filters.items()]. *)
Fixpoint summary_lines (filters : list (string * value)) : option (list string) :=
  match filters with
  | [] => Some []
  | entry :: rest =>
      match summary_line entry, summary_lines rest with
      | Some l, Some ls => Some (l :: ls)
      | _, _ => None
      end
  end.

(** [print_results(filtered_data, filters)]: the report, or [None] when a
    capitalised key leaves the range of the model. *)
Definition print_results (filtered_data : list record) (filters : list (string * value))
  : option (list string) :=
  let n := str_of_nat (List.length filtered_data) in
  let head (rest : list string) :=
    String newline ("Filtered data (" ++ n ++ " items):")
    :: repeat_char "=" 60 :: rest in
  match filtered_data with
  | [] => Some (head ["No helmets match your criteria."])
  | _ =>
      match (match filters with
             | [] => Some ["No filters applied - showing all data"]
             | _ => summary_lines filters
             end) with
      | Some summary =>
          Some (head
                  (List.app (print_items 1 filtered_data)
                     (String newline "FILTER SUMMARY:"
                      :: List.app summary
                           ["Total results: " ++ n ++ " items";
                            repeat_char "=" 60])))
      | None => None
      end
  end.

(** ** The program

    [main] for the namespace [args] that [parse_arguments] returned and for
    the answer [response] of the server.  [argparse] has converted each
    option with the type of its declaration and leaves [None] for an option
    that was not given; [vars(args)] lists the options in the order of
    their declaration.  The level that [--verbose] sets lets through no
    further record of this module, whose records are at level INFO and
    above.  An interruption from the keyboard is not modelled. *)

Record Namespace : Type := {
  style : option string;
  cost : option float;
  score : option float;
  brand : option string;
  rating : option Z;
  date : option string;
  certifications : option string;
  verbose : bool
}.

Definition opt_value {A} (f : A -> value) (o : option A) : value :=
  match o with
  | Some a => f a
  | None => VNone
  end.

(** [vars(args)] *)
Definition vars (args : Namespace) : list (string * value) :=
  [("style", opt_value VStr (style args));
   ("cost", opt_value VFloat (cost args));
   ("score", opt_value VFloat (score args));
   ("brand", opt_value VStr (brand args));
   ("rating", opt_value VInt (rating args));
   ("date", opt_value VStr (date args));
   ("certifications", opt_value VStr (certifications args));
   ("verbose", VBool (verbose args))].

Definition is_none (v : value) : bool :=
  match v with
  | VNone => true
  | _ => false
  end.

(** The filter mapping that [main] builds from the namespace. *)
Definition main_filters (args : Namespace) : list (string * value) :=
  filter (fun kv => negb (is_none (snd kv)) && negb (mem_str (fst kv) ["verbose"]))
         (vars args).

(** A list of records, as the annotations of [fetch_bicycle_data] and
    [filter_bicycle_data] have it: [None] for any other value. *)
Fixpoint as_records (l : list value) : option (list record) :=
  match l with
  | [] => Some []
  | VDict d :: t =>
      match as_records t with
      | Some ds => Some (d :: ds)
      | None => None
      end
  | _ :: _ => None
  end.






(** * Vocabulary of the statements

    Readings of the results and a class of array literals, used to state
    the properties of the program. *)

(** ** Readings of the evaluator

    The inclusion decision and the sort key of a record as plain values. *)

Definition matches (item : record) (filters : list (string * value)) : bool :=
  match snd (_item_matches_filters item filters) with
  | Return b => b
  | Raise _ => false
  end.

Definition key_of (x : record) : float :=
  match snd (score_key x) with
  | Return k => k
  | Raise _ => S754_nan
  end.

(** The text that [_check_threshold_filter] hands to [float] for a cost. *)
Definition cost_text (item_value : value) : string :=
  remove_char "$" (py_str item_value).

Definition conversion_warning (field : string) (item_value filter_value : value)
  : log_record :=
  (WARNING, "Failed to convert " ++ field ++ " values: item=" ++ py_str item_value
              ++ ", filter=" ++ py_str filter_value).

(** An [int] that [float] can convert; every other value passes. *)
Definition float_fits (v : value) : bool :=
  match v with
  | VInt z => match float_of_Z z with Some _ => true | None => false end
  | _ => true
  end.

(** The decision of one entry of the filter mapping, when it is reached
    and returns. *)
Definition entry_ok (item : record) (entry : string * value) : bool :=
  let '(field, value) := entry in
  match dict_get field item with
  | None => false
  | Some item_value =>
      if mem_str field MAX_THRESHOLD_FIELDS then
        match snd (_check_threshold_filter item_value value field) with
        | Return b => b
        | Raise _ => false
        end
      else String.eqb (lower (py_str item_value)) (lower (py_str value))
  end.

(** An entry whose evaluation raises. *)
Definition entry_raises (item : record) (entry : string * value) : bool :=
  let '(field, value) := entry in
  match dict_get field item with
  | None => false
  | Some item_value =>
      if mem_str field MAX_THRESHOLD_FIELDS then
        match snd (_check_threshold_filter item_value value field) with
        | Return _ => false
        | Raise _ => true
        end
      else false
  end.

(** ** Readings of the sort

    The order of keyed items, and the items of a given key. *)
Definition key_le {A} (x y : float * A) : Prop := float_le (fst x) (fst y) = true.


(** Records paired with their own keys. *)
Definition with_keys (l : list record) : list (float * record) :=
  map (fun r => (key_of r, r)) l.

Definition survivors (data : list record) (filters : list (string * value))
  : list record :=
  filter (fun r => matches r filters) data.

Definition sorted_records (l : list record) : list record :=
  map snd (sort_by_key (with_keys l)).


(** A computation that returns. *)
Definition returns {A} (m : M A) : Prop := exists log a, m = (log, Return a).


(** ** Readings of the repair *)

(** Optional whitespace and then a colon lie ahead. *)
Definition colon_ahead (s : string) : bool :=
  match drop_while is_space s with
  | String ":" _ => true
  | _ => false
  end.

(** A run of word characters starts here and is followed by optional
    whitespace and a colon. *)
Definition key_at (s : string) : bool :=
  negb (is_empty (fst (span is_word s))) && colon_ahead (snd (span is_word s)).



(** ** A class of array literals

    Array literals in the syntax of the source file: objects whose keys
    are runs of word characters and whose values are single-quoted strings
    of plain characters or unsigned decimal numerals. *)

Inductive js_value : Type :=
| JsStr (s : string)
| JsNum (digits : string).

Definition js_object : Type := list (string * js_value).

(** A character that may stand in a string of the class: printable or
    beyond, and none of the two quotes, the backslash, the colon and the
    closing bracket. *)
Definition plain_char (c : ascii) : bool :=
  (32 <=? code c)%N && negb (Ascii.eqb c squote) && negb (Ascii.eqb c dquote)
  && negb (Ascii.eqb c backslash) && negb (Ascii.eqb c ":") && negb (Ascii.eqb c "]").







(** The Python value that a value of the class denotes. *)
Definition to_value (v : js_value) : value :=
  match v with
  | JsStr s => VStr s
  | JsNum ds => VInt (Z.of_N (digits_value 0 ds))
  end.

Definition to_pair (f : string * js_value) : string * value :=
  (fst f, to_value (snd f)).

Definition to_record (o : js_object) : value := VDict (map to_pair o).














(** ** Readings of the decoder *)

(** A parser that does not run out of fuel and consumes what it reads, on
    texts of at most [n] characters. *)
Definition progresses {A} (scan : string -> jres A) (n : nat) : Prop :=
  forall s, String.length s <= n ->
    scan s <> JTooDeep
    /\ forall v r, scan s = JOk v r -> String.length r < String.length s.

(** ** Readings of the search, the report and the program *)

(** A closing bracket followed by a semicolon occurs in [s]. *)
Fixpoint has_end_mark (s : string) : bool :=
  match s with
  | EmptyString => false
  | String c t => (Ascii.eqb c "]" && starts_with (Ascii.eqb ";") t) || has_end_mark t
  end.

(** What the pattern does after the opening bracket: the continuation of
    the lazy repetition. *)
Definition close_array {R} (whole : string) (k : string -> option string -> option R)
    (s' : string) : option R :=
  match strip_prefix "]" s' with
  | Some s1 =>
      match strip_prefix ";" s1 with
      | Some s2 => k s2 (Some (take_str (String.length whole - String.length s1) whole))
      | None => None
      end
  | None => None
  end.

(** [s'] is what is left of [s] after some of its characters. *)
Definition rest_of (s' s : string) : Prop := exists p, s = p ++ s'.



(** A character of ASCII. *)
Definition is_ascii (c : ascii) : bool := (code c <? 128)%N.

(** A record whose certifications are shown. *)
Definition shows_certifications (item : record) : bool :=
  match dict_get "certifications" item with
  | Some v => truthy v
  | None => false
  end.

(** The namespace of a run without options. *)
Definition no_options (v : bool) : Namespace :=
  {| style := None; cost := None; score := None; brand := None; rating := None;
     date := None; certifications := None; verbose := v |}.



(** * Properties *)

(** ** Threshold comparison *)

Lemma remove_char_app (c : ascii) (a b : string) :
  remove_char c (a ++ b) = remove_char c a ++ remove_char c b.
Proof.
  induction a as [|x a IH]; simpl; [reflexivity|].
  destruct (Ascii.eqb x c); simpl; now rewrite IH.
Qed.

Lemma remove_char_absent (c : ascii) (s : string) :
  count_char c (remove_char c s) = 0.
Proof.
  induction s as [|x s IH]; simpl; [reflexivity|].
  destruct (Ascii.eqb x c) eqn:E; simpl; [assumption|].
  now rewrite E.
Qed.

Lemma check_threshold_cost (iv fv : value) :
  _check_threshold_filter iv fv "cost" =
  match float_of_string (cost_text iv) with
  | None => ([conversion_warning "cost" iv fv], Return false)
  | Some c =>
      match py_float fv with
      | (_, Return x) => ([], Return (float_le c x))
      | (_, Raise e) =>
          if is_value_or_type_error e
          then ([conversion_warning "cost" iv fv], Return false)
          else ([], Raise e)
      end
  end.
Proof.
  unfold _check_threshold_filter, item_number, cost_text, conversion_warning.
  cbn [String.eqb Ascii.eqb Bool.eqb py_float].
  destruct (float_of_string (remove_char "$" (py_str iv))) as [c|]; [|reflexivity].
  destruct fv as [| b | z | f | s | l | d]; cbn; try reflexivity.
  - destruct (float_of_Z z); reflexivity.
  - destruct (float_of_string s); reflexivity.
Qed.

(** ** Reasoning about computations *)

Lemma bind_return_inv {A B} (m : M A) (k : A -> M B) (log : list log_record) (b : B) :
  bind m k = (log, Return b) ->
  exists l1 a l2, m = (l1, Return a) /\ k a = (l2, Return b) /\ log = (l1 ++ l2)%list.
Proof.
  destruct m as [l1 [a|e]]; simpl; [|discriminate].
  destruct (k a) as [l2 r] eqn:Hk. intros H. inversion H; subst.
  exists l1, a, l2. auto.
Qed.

Lemma bind_ret_l {A B} (a : A) (k : A -> M B) : bind (ret a) k = k a.
Proof. unfold bind, ret. now destruct (k a). Qed.

Lemma bind_raise_l {A B} (e : exn) (k : A -> M B) : bind (raise e) k = raise e.
Proof. reflexivity. Qed.

Lemma py_float_silent (v : value) : fst (py_float v) = [].
Proof.
  destruct v as [| b | z | f | s | l | d]; simpl; try reflexivity.
  - now destruct (float_of_Z z).
  - now destruct (float_of_string s).
Qed.

(** [float] raises an [OverflowError] on an oversized [int] only. *)
Lemma py_float_cases (v : value) :
  float_fits v = true ->
  (exists x, py_float v = ret x) \/ py_float v = raise ValueError
  \/ py_float v = raise TypeError.
Proof.
  destruct v as [| b | z | f | s | l | d]; simpl; intros H;
    try (right; right; reflexivity); try (left; eexists; reflexivity).
  - destruct (float_of_Z z); [left; eexists; reflexivity | discriminate].
  - destruct (float_of_string s); [left; eexists; reflexivity | right; left; reflexivity].
Qed.

Lemma item_number_cases (field : string) (iv : value) :
  String.eqb field "cost" = true \/ float_fits iv = true ->
  (exists x, item_number field iv = ret x) \/ item_number field iv = raise ValueError
  \/ item_number field iv = raise TypeError.
Proof.
  intros H. unfold item_number. destruct (String.eqb field "cost").
  - apply py_float_cases. reflexivity.
  - destruct H as [H|H]; [discriminate | now apply py_float_cases].
Qed.

Lemma check_threshold_unfold (iv fv : value) (field : string) :
  _check_threshold_filter iv fv field =
  match item_number field iv with
  | (_, Return c) =>
      match py_float fv with
      | (_, Return x) => ([], Return (float_le c x))
      | (_, Raise e) =>
          if is_value_or_type_error e
          then ([conversion_warning field iv fv], Return false)
          else ([], Raise e)
      end
  | (_, Raise e) =>
      if is_value_or_type_error e
      then ([conversion_warning field iv fv], Return false)
      else ([], Raise e)
  end.
Proof.
  unfold _check_threshold_filter, conversion_warning.
  pose proof (py_float_silent fv) as Hf.
  assert (Hi : fst (item_number field iv) = []).
  { unfold item_number. destruct (String.eqb field "cost"); apply py_float_silent. }
  destruct (item_number field iv) as [l1 [c|e]]; simpl in Hi; subst l1.
  - destruct (py_float fv) as [l2 [x|e]]; simpl in Hf; subst l2; simpl.
    + reflexivity.
    + now destruct (is_value_or_type_error e).
  - simpl. now destruct (is_value_or_type_error e).
Qed.

(** With operands that [float] can convert, the threshold test returns. *)
Lemma check_threshold_returns (iv fv : value) (field : string) :
  String.eqb field "cost" = true \/ float_fits iv = true -> float_fits fv = true ->
  exists log b, _check_threshold_filter iv fv field = (log, Return b).
Proof.
  intros Hi Hf. rewrite check_threshold_unfold.
  destruct (item_number_cases field iv Hi) as [[c ->] | [-> | ->]]; simpl; eauto.
  destruct (py_float_cases fv Hf) as [[x ->] | [-> | ->]]; simpl; eauto.
Qed.

Lemma item_matches_cons (item : record) (entry : string * value)
    (rest : list (string * value)) :
  entry_raises item entry = false ->
  snd (_item_matches_filters item (entry :: rest)) =
  if entry_ok item entry then snd (_item_matches_filters item rest) else Return false.
Proof.
  destruct entry as [field value]. unfold entry_raises, entry_ok.
  cbn [_item_matches_filters].
  destruct (dict_get field item) as [iv|]; [|reflexivity].
  destruct (mem_str field MAX_THRESHOLD_FIELDS).
  - destruct (_check_threshold_filter iv value field) as [l [b|e]]; simpl; [|discriminate].
    intros _. destruct b; simpl; [|reflexivity].
    now destruct (_item_matches_filters item rest).
  - intros _. now destruct (String.eqb _ _).
Qed.

(** When no entry raises, the decision is the conjunction of the entries. *)
Lemma item_matches_conjunction (item : record) (filters : list (string * value)) :
  forallb (fun e => negb (entry_raises item e)) filters = true ->
  snd (_item_matches_filters item filters) = Return (forallb (entry_ok item) filters).
Proof.
  induction filters as [|entry rest IH]; [reflexivity|].
  cbn [forallb]. rewrite andb_true_iff, negb_true_iff. intros [H1 H2].
  rewrite item_matches_cons by assumption.
  destruct (entry_ok item entry); [now apply IH | reflexivity].
Qed.

Lemma collect_matches_return (data : list record) (filters : list (string * value))
    (log : list log_record) (l : list record) :
  collect_matches data filters = (log, Return l) ->
  l = filter (fun r => matches r filters) data
  /\ Forall (fun r => exists lg b, _item_matches_filters r filters = (lg, Return b)) data.
Proof.
  revert log l. induction data as [|item rest IH]; intros log l H.
  - inversion H. split; [reflexivity | constructor].
  - cbn [collect_matches] in H.
    apply bind_return_inv in H as (l1 & ok & l2 & Hm & H & ->).
    apply bind_return_inv in H as (l3 & tl & l4 & Hc & H & ->).
    inversion H; subst. destruct (IH _ _ Hc) as [-> HF].
    split.
    + assert (Hmi : matches item filters = ok) by (unfold matches; now rewrite Hm).
      cbn [filter]. now rewrite Hmi.
    + constructor; eauto.
Qed.

Lemma keyed_return (l : list record) (log : list log_record)
    (ks : list (float * record)) :
  keyed l = (log, Return ks) ->
  ks = map (fun r => (key_of r, r)) l
  /\ Forall (fun r => exists k, score_key r = ret k) l.
Proof.
  assert (Hs : forall r, fst (score_key r) = []).
  { intros r. unfold score_key. destruct (dict_get "score" r); [apply py_float_silent | reflexivity]. }
  revert log ks. induction l as [|x t IH]; intros log ks H.
  - inversion H. split; [reflexivity | constructor].
  - cbn [keyed] in H.
    apply bind_return_inv in H as (l1 & k & l2 & Hk & H & ->).
    apply bind_return_inv in H as (l3 & kt & l4 & Ht & H & ->).
    inversion H; subst. destruct (IH _ _ Ht) as [-> HF].
    assert (l1 = []) by (specialize (Hs x); now rewrite Hk in Hs). subst l1.
    split.
    + assert (Hx : key_of x = k) by (unfold key_of; now rewrite Hk).
      cbn [map]. now rewrite Hx.
    + constructor; [exists k; exact Hk | exact HF].
Qed.

Lemma keyed_total (l : list record) :
  Forall (fun r => exists k, score_key r = ret k) l ->
  keyed l = ret (map (fun r => (key_of r, r)) l).
Proof.
  induction 1 as [|x t [k Hk] _ IH]; [reflexivity|].
  assert (Hx : key_of x = k) by (unfold key_of; now rewrite Hk).
  cbn [keyed map]. rewrite Hk, IH, Hx. reflexivity.
Qed.

Lemma collect_matches_total (data : list record) (filters : list (string * value)) :
  Forall (fun r => exists lg b, _item_matches_filters r filters = (lg, Return b)) data ->
  exists log, collect_matches data filters
              = (log, Return (filter (fun r => matches r filters) data)).
Proof.
  induction 1 as [|x t (lg & b & Hx) _ [log IH]]; [now exists []|].
  assert (Hm : matches x filters = b) by (unfold matches; now rewrite Hx).
  cbn [collect_matches filter]. rewrite Hx, IH, Hm. cbn.
  eexists. reflexivity.
Qed.

(** ** The order of floats *)

Ltac float_cases :=
  unfold float_le, float_lt, float_eq, SFleb, SFltb, SFeqb, SFcompare, is_nan;
  repeat match goal with
         | x : float |- _ => destruct x as [[|] | [|] | | [|] ? ?]
         end;
  try discriminate; try reflexivity;
  change (Pos.compare_cont Eq) with Pos.compare;
  repeat match goal with
         | |- context [Z.compare ?a ?b] => destruct (Z.compare_spec a b)
         | |- context [Pos.compare ?a ?b] => destruct (Pos.compare_spec a b)
         end;
  simpl; intros; try discriminate; try reflexivity; try lia.

Lemma float_le_trans (x y z : float) :
  float_le x y = true -> float_le y z = true -> float_le x z = true.
Proof. float_cases. Qed.

Lemma float_lt_le (x y : float) : float_lt x y = true -> float_le x y = true.
Proof. float_cases. Qed.

Lemma float_total (x y : float) :
  is_nan x = false -> is_nan y = false -> float_lt y x = false -> float_le x y = true.
Proof. float_cases. Qed.


Lemma float_le_refl (x : float) : is_nan x = false -> float_le x x = true.
Proof. float_cases. Qed.

(** ** The sort *)

Section Sorting.
Context {A : Type}.
Implicit Types (x y : float * A) (l : list (float * A)).

Lemma insert_by_key_perm x l : Permutation (insert_by_key x l) (x :: l).
Proof.
  induction l as [|y t IH]; simpl; [reflexivity|].
  destruct (float_lt (fst y) (fst x)); [|reflexivity].
  rewrite IH. apply perm_swap.
Qed.

Lemma sort_by_key_perm l : Permutation (sort_by_key l) l.
Proof.
  induction l as [|x t IH]; simpl; [reflexivity|].
  rewrite insert_by_key_perm. now constructor.
Qed.

Lemma insert_by_key_sorted x l :
  is_nan (fst x) = false ->
  Forall (fun y => is_nan (fst y) = false) l ->
  StronglySorted key_le l -> StronglySorted key_le (insert_by_key x l).
Proof.
  intros Hx Hl Hs. induction Hs as [|y t Hs IH Hy]; simpl.
  - repeat constructor.
  - inversion Hl as [|? ? Hny Hnt]; subst.
    destruct (float_lt (fst y) (fst x)) eqn:E.
    + constructor; [now apply IH|].
      rewrite (insert_by_key_perm x t). constructor; [|assumption].
      now apply float_lt_le.
    + assert (Hxy : key_le x y) by now apply float_total.
      constructor; [now constructor|].
      constructor; [assumption|].
      eapply Forall_impl; [|exact Hy].
      intros z Hz. unfold key_le in *. eapply float_le_trans; eassumption.
Qed.

Lemma sort_by_key_sorted l :
  Forall (fun y => is_nan (fst y) = false) l ->
  StronglySorted key_le (sort_by_key l).
Proof.
  induction 1 as [|x t Hx Ht IH]; simpl; [constructor|].
  apply insert_by_key_sorted; try assumption.
  now rewrite sort_by_key_perm.
Qed.


End Sorting.

Lemma sorted_records_perm (l : list record) : Permutation l (sorted_records l).
Proof.
  unfold sorted_records. rewrite sort_by_key_perm. unfold with_keys.
  rewrite map_map. cbn. now rewrite map_id.
Qed.

Lemma keyed_pairs_own (l : list record) :
  Forall (fun p => fst p = key_of (snd p)) (sort_by_key (with_keys l)).
Proof.
  rewrite sort_by_key_perm. unfold with_keys.
  apply Forall_forall. intros p Hp. apply in_map_iff in Hp as (r & <- & _). reflexivity.
Qed.




(** ** What [filter_bicycle_data] returns *)

Lemma try_all_return {A} (m : M A) (h : exn -> M A) (log : list log_record) (a : A) :
  (forall e, exists l e', h e = (l, Raise e')) ->
  try_except m [(fun _ => true, h)] = (log, Return a) -> m = (log, Return a).
Proof.
  intros Hh. destruct m as [l [a'|e]]; simpl; [auto|].
  destruct (Hh e) as (l' & e' & ->). discriminate.
Qed.

Lemma filter_bicycle_data_unfold (data : list record) (filters : list (string * value)) :
  filter_bicycle_data data filters =
  match data with
  | [] => ([(WARNING, "No data provided for filtering")], Return [])
  | _ => try_except (filter_try data filters)
           [(fun _ => true,
             fun e => raise (BicycleDataError "Failed to filter data: " (Some e)))]
  end.
Proof. destruct data; reflexivity. Qed.

Lemma filter_try_returns_inv (data : list record) (filters : list (string * value))
    (log : list log_record) (out : list record) :
  filter_try data filters = (log, Return out) ->
  out = sorted_records (survivors data filters)
  /\ Forall (fun r => returns (_item_matches_filters r filters)) data
  /\ Forall (fun r => exists k, score_key r = ret k) (survivors data filters).
Proof.
  unfold filter_try. intros H.
  apply bind_return_inv in H as (l1 & fd & l2 & Hc & H & ->).
  apply bind_return_inv in H as (l3 & ks & l4 & Hk & H & ->).
  apply bind_return_inv in H as (l5 & u & l6 & _ & H & ->).
  inversion H; subst out.
  apply collect_matches_return in Hc as [-> HF].
  apply keyed_return in Hk as [-> HK].
  split; [reflexivity|]. split; assumption.
Qed.

Lemma filter_try_returns_intro (data : list record) (filters : list (string * value)) :
  Forall (fun r => returns (_item_matches_filters r filters)) data ->
  Forall (fun r => exists k, score_key r = ret k) (survivors data filters) ->
  exists log, filter_try data filters
              = (log, Return (sorted_records (survivors data filters))).
Proof.
  intros HF HK. unfold filter_try.
  destruct (collect_matches_total data filters HF) as [l1 ->].
  fold (survivors data filters).
  cbn [bind]. rewrite (keyed_total _ HK). cbn.
  eexists. reflexivity.
Qed.

Lemma filter_returns_inv (data : list record) (filters : list (string * value))
    (log : list log_record) (out : list record) :
  filter_bicycle_data data filters = (log, Return out) ->
  out = sorted_records (survivors data filters)
  /\ Forall (fun r => returns (_item_matches_filters r filters)) data
  /\ Forall (fun r => exists k, score_key r = ret k) (survivors data filters).
Proof.
  rewrite filter_bicycle_data_unfold. destruct data as [|d0 data'].
  - intros H. inversion H. repeat split; constructor.
  - intros H. apply try_all_return in H; [|intros e; do 2 eexists; reflexivity].
    eapply filter_try_returns_inv; eassumption.
Qed.

Lemma filter_returns_intro (data : list record) (filters : list (string * value)) :
  Forall (fun r => returns (_item_matches_filters r filters)) data ->
  Forall (fun r => exists k, score_key r = ret k) (survivors data filters) ->
  exists log, filter_bicycle_data data filters
              = (log, Return (sorted_records (survivors data filters))).
Proof.
  intros HF HK. rewrite filter_bicycle_data_unfold. destruct data as [|d0 data'].
  - eexists. reflexivity.
  - destruct (filter_try_returns_intro _ _ HF HK) as [log ->].
    eexists. reflexivity.
Qed.


(** With operands that [float] can convert, the decision on a record
    returns. *)
Lemma item_matches_returns (item : record) (filters : list (string * value)) :
  Forall (fun e => float_fits (snd e) = true) filters ->
  (forall v, dict_get "score" item = Some v -> float_fits v = true) ->
  returns (_item_matches_filters item filters).
Proof.
  intros HF Hs. induction HF as [|[field fv] rest Hfv _ IH].
  - do 2 eexists. reflexivity.
  - cbn [_item_matches_filters]. destruct (dict_get field item) as [iv|] eqn:Hg;
      [|do 2 eexists; reflexivity].
    destruct (mem_str field MAX_THRESHOLD_FIELDS) eqn:Hm.
    + assert (Hi : String.eqb field "cost" = true \/ float_fits iv = true).
      { unfold mem_str, MAX_THRESHOLD_FIELDS in Hm. cbn [existsb] in Hm.
        destruct (String.eqb field "cost") eqn:E1; [now left|].
        destruct (String.eqb field "score") eqn:E2; [|discriminate].
        apply String.eqb_eq in E2. subst field. right. now apply Hs. }
      destruct (check_threshold_returns iv fv field Hi Hfv) as (l & b & ->).
      destruct b; cbn.
      * destruct IH as (l' & b' & ->). do 2 eexists. reflexivity.
      * do 2 eexists. reflexivity.
    + destruct (String.eqb _ _); [|do 2 eexists; reflexivity].
      exact IH.
Qed.

(** ** C10: the dollar sign *)

(** C10. During threshold coercion of the cost field every dollar sign is
    removed from the text of the value, wherever it stands: the decision on
    a cost is the same with a dollar sign inserted at any position, so that
    the text 1$50 is read as the number 150.0 and passes a threshold of
    150. *)
Theorem cost_strips_every_dollar_sign :
  (forall (pre post : string) (fv : value),
      snd (_check_threshold_filter (VStr (pre ++ "$" ++ post)) fv "cost")
      = snd (_check_threshold_filter (VStr (pre ++ post)) fv "cost"))
  /\ (forall s : string, count_char "$" (cost_text (VStr s)) = 0)
  /\ float_of_Z 150 = Some (S754_finite false 5277655813324800 (-45))
  /\ item_number "cost" (VStr "1$50") = ret (S754_finite false 5277655813324800 (-45))
  /\ _check_threshold_filter (VStr "1$50") (VInt 150) "cost" = ret true
  /\ filter_bicycle_data [[("cost", VStr "1$50")]] [("cost", VInt 150)]
     = ([(INFO, "Filtered 1 items down to 1 items")],
        Return [[("cost", VStr "1$50")]]).
Proof.
  split; [|split; [|repeat split; vm_compute; reflexivity]].
  - intros pre post fv. rewrite !check_threshold_cost.
    assert (E : cost_text (VStr (pre ++ "$" ++ post)) = cost_text (VStr (pre ++ post))).
    { unfold cost_text. cbn [py_str]. now rewrite !remove_char_app. }
    rewrite E. destruct (float_of_string (cost_text (VStr (pre ++ post)))); [|reflexivity].
    destruct (py_float fv) as [l [x|e]]; [reflexivity|].
    now destruct (is_value_or_type_error e).
  - intros s. unfold cost_text. apply remove_char_absent.
Qed.

(** ** C7: exact-match fields *)

(** C7. For a field outside the threshold fields a record is accepted for
    that constraint exactly when the lower-cased text of its value equals
    the lower-cased text of the requested value; the record with brand Bell
    is returned for the request bell. *)
Theorem exact_match_is_case_insensitive
    (item : record) (field : string) (item_value requested : value)
    (rest : list (string * value)) :
  mem_str field MAX_THRESHOLD_FIELDS = false ->
  dict_get field item = Some item_value ->
  _item_matches_filters item ((field, requested) :: rest)
  = (if String.eqb (lower (py_str item_value)) (lower (py_str requested))
     then _item_matches_filters item rest else ret false)
  /\ (_item_matches_filters item [(field, requested)] = ret true
      <-> lower (py_str item_value) = lower (py_str requested))
  /\ filter_bicycle_data [[("brand", VStr "Bell")]] [("brand", VStr "bell")]
     = ([(INFO, "Filtered 1 items down to 1 items")],
        Return [[("brand", VStr "Bell")]]).
Proof.
  intros Hm Hg. split; [|split; [|vm_compute; reflexivity]].
  - cbn [_item_matches_filters]. now rewrite Hg, Hm.
  - cbn [_item_matches_filters]. rewrite Hg, Hm.
    destruct (String.eqb _ _) eqn:E.
    + apply String.eqb_eq in E. tauto.
    + apply String.eqb_neq in E. split; [discriminate | contradiction].
Qed.

Lemma exact_match_is_case_insensitive_witness :
  mem_str "brand" MAX_THRESHOLD_FIELDS = false
  /\ dict_get "brand" [("brand", VStr "Bell")] = Some (VStr "Bell")
  /\ (_item_matches_filters [("brand", VStr "Bell")] [("brand", VStr "bell")] = ret true
      <-> lower (py_str (VStr "Bell")) = lower (py_str (VStr "bell"))).
Proof.
  split; [reflexivity|]. split; [reflexivity|].
  apply (exact_match_is_case_insensitive
           [("brand", VStr "Bell")] "brand" (VStr "Bell") (VStr "bell") []);
    reflexivity.
Defined.

(** ** C5: the cost threshold *)

(** C5. With the mapping cost: X, where X converts to the number x, a
    record is included exactly when it has a cost whose text, stripped of
    dollar signs, converts to a number not above x; a larger number
    excludes it silently, and a text that does not convert excludes it with
    one logged warning.  The records with costs $300 and $50 filtered by
    cost: 100 yield the second record only. *)
Theorem cost_threshold_inclusion (r : record) (X : value) (x : float) :
  py_float X = ret x ->
  (_item_matches_filters r [("cost", X)] = ret true
   <-> exists v c, dict_get "cost" r = Some v
                   /\ float_of_string (cost_text v) = Some c
                   /\ float_le c x = true)
  /\ (forall v c, dict_get "cost" r = Some v ->
                  float_of_string (cost_text v) = Some c ->
                  float_le c x = false ->
                  _item_matches_filters r [("cost", X)] = ret false)
  /\ (forall v, dict_get "cost" r = Some v ->
                float_of_string (cost_text v) = None ->
                _item_matches_filters r [("cost", X)]
                = ([conversion_warning "cost" v X], Return false))
  /\ (forall data log out,
         filter_bicycle_data data [("cost", X)] = (log, Return out) ->
         forall r', In r' out <-> In r' data /\ matches r' [("cost", X)] = true)
  /\ filter_bicycle_data [[("cost", VStr "$300")]; [("cost", VStr "$50")]]
                         [("cost", VInt 100)]
     = ([(INFO, "Filtered 2 items down to 1 items")], Return [[("cost", VStr "$50")]]).
Proof.
  intros HX.
  assert (Hone : forall v, dict_get "cost" r = Some v ->
            _item_matches_filters r [("cost", X)] =
            match float_of_string (cost_text v) with
            | Some c => ([], Return (float_le c x))
            | None => ([conversion_warning "cost" v X], Return false)
            end).
  { intros v Hv. cbn [_item_matches_filters]. rewrite Hv.
    change (mem_str "cost" MAX_THRESHOLD_FIELDS) with true. cbv iota.
    rewrite check_threshold_cost, HX.
    destruct (float_of_string (cost_text v)) as [c|]; [|reflexivity].
    cbn. now destruct (float_le c x). }
  split; [|split; [|split; [|split]]].
  - split.
    + intros H. destruct (dict_get "cost" r) as [v|] eqn:Hv.
      * rewrite (Hone v eq_refl) in H.
        destruct (float_of_string (cost_text v)) as [c|] eqn:Hc; [|discriminate].
        exists v, c. inversion H. auto.
      * cbn [_item_matches_filters] in H. rewrite Hv in H. discriminate.
    + intros (v & c & Hv & Hc & Hle). rewrite (Hone v Hv), Hc, Hle. reflexivity.
  - intros v c Hv Hc Hle. rewrite (Hone v Hv), Hc, Hle. reflexivity.
  - intros v Hv Hc. rewrite (Hone v Hv), Hc. reflexivity.
  - intros data log out H r'. apply filter_returns_inv in H as (-> & _ & _).
    split; intros Hin.
    + apply (proj1 (filter_In (fun r0 => matches r0 [("cost", X)]) r' data)).
      eapply Permutation_in; [symmetry; apply sorted_records_perm|]. exact Hin.
    + eapply Permutation_in; [apply sorted_records_perm|].
      apply (proj2 (filter_In (fun r0 => matches r0 [("cost", X)]) r' data)). exact Hin.
  - vm_compute. reflexivity.
Qed.

Lemma cost_threshold_inclusion_witness :
  py_float (VInt 100) = ret (S754_finite false 7036874417766400 (-46))
  /\ (_item_matches_filters [("cost", VStr "$50")] [("cost", VInt 100)] = ret true
      <-> exists v c, dict_get "cost" [("cost", VStr "$50")] = Some v
                      /\ float_of_string (cost_text v) = Some c
                      /\ float_le c (S754_finite false 7036874417766400 (-46)) = true).
Proof.
  split; [vm_compute; reflexivity|].
  apply (cost_threshold_inclusion [("cost", VStr "$50")] (VInt 100)
           (S754_finite false 7036874417766400 (-46))).
  vm_compute. reflexivity.
Defined.

(** ** C9: the order of the entries *)

Lemma forallb_permutation {A} (f : A -> bool) (l l' : list A) :
  Permutation l l' -> forallb f l = forallb f l'.
Proof.
  induction 1 as [| x l l' _ IH | x y l | l l' l'' _ IH1 _ IH2]; cbn.
  - reflexivity.
  - now rewrite IH.
  - now destruct (f x), (f y).
  - congruence.
Qed.

(** As long as no entry raises, the decision on a record does not depend on
    the order of the entries. *)
Lemma matches_order_irrelevant (item : record) (filters filters' : list (string * value)) :
  Permutation filters filters' ->
  forallb (fun e => negb (entry_raises item e)) filters = true ->
  snd (_item_matches_filters item filters) = snd (_item_matches_filters item filters').
Proof.
  intros HP HR.
  rewrite !item_matches_conjunction;
    [now rewrite (forallb_permutation _ _ _ HP) | | assumption].
  now rewrite <- (forallb_permutation _ _ _ HP).
Qed.

(** C9. Evaluation at a record whose score is an integer beyond the range
    of floats: with the score entry first the conversion raises
    OverflowError, which the threshold test does not catch, and the whole
    call fails; with the brand entry first the record is rejected before its
    score is read, and the call returns the empty list. *)
Theorem filter_order_changes_outcome :
  filter_bicycle_data [[("brand", VStr "Bell"); ("score", VInt (10 ^ 400))]]
                      [("score", VInt 5); ("brand", VStr "Giro")]
  = ([], Raise (BicycleDataError "Failed to filter data: " (Some OverflowError)))
  /\ filter_bicycle_data [[("brand", VStr "Bell"); ("score", VInt (10 ^ 400))]]
                         [("brand", VStr "Giro"); ("score", VInt 5)]
     = ([(INFO, "Filtered 1 items down to 0 items")], Return [])
  /\ Permutation [("score", VInt 5); ("brand", VStr "Giro")]
                 [("brand", VStr "Giro"); ("score", VInt 5)].
Proof.
  split; [vm_compute; reflexivity|]. split; [vm_compute; reflexivity|].
  apply perm_swap.
Qed.

(** ** C1: when the filter raises *)






(** ** C4 and C6: the sort *)

Lemma float_le_pos_inf (x : float) : is_nan x = false -> float_le x pos_inf = true.
Proof. unfold pos_inf. float_cases. Qed.








(** ** Strings *)

Lemma app_assoc_str (a b c : string) : (a ++ b) ++ c = a ++ (b ++ c).
Proof. induction a as [|x a IH]; simpl; [reflexivity | now rewrite IH]. Qed.


Lemma length_app_str (a b : string) :
  String.length (a ++ b) = String.length a + String.length b.
Proof. induction a as [|x a IH]; simpl; [reflexivity | now rewrite IH]. Qed.

Lemma take_str_app (a b : string) :
  take_str (String.length (a ++ b) - String.length b) (a ++ b) = a.
Proof.
  rewrite length_app_str. replace (String.length a + String.length b - String.length b)
    with (String.length a) by lia.
  induction a as [|x a IH]; simpl.
  - now destruct b.
  - now rewrite IH.
Qed.



Lemma span_app (p : ascii -> bool) (w r : string) :
  forallb_str p w = true -> starts_with p r = false -> span p (w ++ r) = (w, r).
Proof.
  intros Hw Hr. induction w as [|c w IH].
  - destruct r as [|c r]; [reflexivity|]. cbn in *. now rewrite Hr.
  - cbn in Hw. apply andb_true_iff in Hw as [Hc Hw].
    cbn [append span]. now rewrite Hc, IH.
Qed.

Lemma span_spec (p : ascii -> bool) (s : string) :
  fst (span p s) ++ snd (span p s) = s
  /\ forallb_str p (fst (span p s)) = true
  /\ starts_with p (snd (span p s)) = false.
Proof.
  induction s as [|c s (IH1 & IH2 & IH3)]; simpl; [auto|].
  destruct (p c) eqn:E.
  - destruct (span p s) as [a b]. simpl in *. rewrite ?E, IH1. auto.
  - simpl. rewrite ?E. auto.
Qed.

(** ** The matcher *)

Lemma rep_greedy_span {R} (cls : ascii -> bool) (min : nat) (s : string)
    (k : string -> option R) :
  (forall c t, cls c = true -> k (String c t) = None) ->
  rep_greedy cls min s k =
  if (min <=? String.length (fst (span cls s)))%nat then k (snd (span cls s)) else None.
Proof.
  intros Hk. revert min. induction s as [|c s IH]; intros min.
  - simpl. now destruct min.
  - cbn [rep_greedy span]. destruct (cls c) eqn:E.
    + rewrite IH. destruct (span cls s) as [a b]. cbn [fst snd String.length].
      destruct min as [|m]; cbn [pred].
      * cbn. destruct (k b); [reflexivity|]. now apply Hk.
      * change (S m <=? S (String.length a))%nat with (m <=? String.length a)%nat.
        now destruct (m <=? String.length a)%nat, (k b).
    + cbn. now destruct min.
Qed.


Lemma rep_lazy_here {R} (cls : ascii -> bool) (s : string)
    (k : string -> option R) (r : R) :
  k s = Some r -> rep_lazy cls 0 s k = Some r.
Proof. intros H. destruct s; cbn [rep_lazy]; now rewrite H. Qed.

Lemma is_space_not_colon (c : ascii) : is_space c = true -> Ascii.eqb ":" c = false.
Proof.
  destruct c as [[] [] [] [] [] [] [] []]; vm_compute; congruence.
Qed.

Lemma lookahead_colon {R} (s : string) (r : R) :
  rep_greedy is_space 0 s
    (fun s' => match strip_prefix ":" s' with Some _ => Some r | None => None end)
  = if colon_ahead s then Some r else None.
Proof.
  rewrite rep_greedy_span.
  - cbn [Nat.leb]. unfold colon_ahead.
    assert (E : snd (span is_space s) = drop_while is_space s).
    { induction s as [|c s IH]; [reflexivity|]. simpl. destruct (is_space c); [|reflexivity].
      destruct (span is_space s). exact IH. }
    rewrite E. destruct (drop_while is_space s) as [|c t]; [reflexivity|].
    destruct c as [[] [] [] [] [] [] [] []]; reflexivity.
  - intros c t Hc. cbn [strip_prefix]. now rewrite (is_space_not_colon c Hc).
Qed.

Lemma is_word_not_colon_ahead (c : ascii) (t : string) :
  is_word c = true -> colon_ahead (String c t) = false.
Proof.
  unfold colon_ahead. cbn [drop_while].
  destruct c as [[] [] [] [] [] [] [] []]; vm_compute; congruence.
Qed.

(** Where [key_pattern] matches, and what it captures. *)
Lemma match_here_key_pattern (s : string) :
  match_here key_pattern s =
  if key_at s then Some (snd (span is_word s), Some (fst (span is_word s))) else None.
Proof.
  unfold match_here, key_pattern, key_at. cbn [rmatch].
  rewrite rep_greedy_span.
  - destruct (span_spec is_word s) as (Hs & _ & _).
    destruct (span is_word s) as [w r]. cbn [fst snd] in *.
    destruct w as [|c w]; [reflexivity|].
    cbn [String.length Nat.leb is_empty negb andb].
    rewrite lookahead_colon. destruct (colon_ahead r); [|reflexivity].
    rewrite <- Hs at 1 2. now rewrite take_str_app.
  - intros c t Hc. rewrite lookahead_colon.
    now rewrite (is_word_not_colon_ahead c t Hc).
Qed.

(** Where [quote_pattern] matches: at a single quote that has a partner. *)
Lemma match_here_quote_pattern (s : string) :
  match_here quote_pattern s =
  match s with
  | String q t =>
      if Ascii.eqb "'" q then
        match snd (span not_squote t) with
        | String _ r => Some (r, Some (fst (span not_squote t)))
        | EmptyString => None
        end
      else None
  | EmptyString => None
  end.
Proof.
  unfold match_here, quote_pattern. cbn [rmatch strip_prefix].
  destruct s as [|q t]; [reflexivity|].
  destruct (Ascii.eqb "'" q) eqn:Eq; [|reflexivity].
  rewrite rep_greedy_span.
  - cbn [Nat.leb]. destruct (span_spec not_squote t) as (Hs & _ & Hr).
    destruct (span not_squote t) as [w r]. cbn [fst snd] in *.
    destruct r as [|c r]; [reflexivity|].
    cbn in Hr. unfold not_squote in Hr. apply negb_false_iff in Hr.
    apply Ascii.eqb_eq in Hr. subst c. cbn [strip_prefix].
    change (Ascii.eqb "'" squote) with true. cbv iota.
    rewrite <- Hs, take_str_app. reflexivity.
  - intros c t' Hc. cbn [rmatch strip_prefix]. unfold not_squote in Hc.
    apply negb_true_iff in Hc.
    rewrite Ascii.eqb_sym in Hc. unfold squote in Hc. now rewrite Hc.
Qed.

(** ** Substitution, step by step *)


Lemma re_sub_step_none (r : regex) (repl : option string -> string)
    (c : ascii) (t : string) :
  match_here r (String c t) = None ->
  re_sub_aux r repl 0 (String c t) = String c (re_sub_aux r repl 0 t).
Proof. intros H. cbn [re_sub_aux]. now rewrite H. Qed.


Lemma re_sub_aux_nil (r : regex) (repl : option string -> string) :
  match_here r EmptyString = None -> re_sub_aux r repl 0 EmptyString = EmptyString.
Proof. intros H. cbn [re_sub_aux]. now rewrite H. Qed.

(** *** The key pattern *)

Lemma quote_keys_step (c : ascii) (t : string) :
  key_at (String c t) = false ->
  quote_keys (String c t) = String c (quote_keys t).
Proof.
  intros H. unfold quote_keys, re_sub. apply re_sub_step_none.
  now rewrite match_here_key_pattern, H.
Qed.

Lemma quote_keys_nil : quote_keys EmptyString = EmptyString.
Proof. reflexivity. Qed.

Lemma key_at_not_word (c : ascii) (t : string) :
  is_word c = false -> key_at (String c t) = false.
Proof. intros H. unfold key_at. cbn [span]. now rewrite H. Qed.

Lemma quote_keys_other (c : ascii) (t : string) :
  is_word c = false -> quote_keys (String c t) = String c (quote_keys t).
Proof. intros H. apply quote_keys_step. now apply key_at_not_word. Qed.



(** *** The quote pattern *)

Lemma requote_other (c : ascii) (t : string) :
  not_squote c = true -> requote_strings (String c t) = String c (requote_strings t).
Proof.
  intros H. unfold requote_strings, re_sub. apply re_sub_step_none.
  rewrite match_here_quote_pattern. unfold not_squote in H.
  apply negb_true_iff in H. rewrite Ascii.eqb_sym in H. unfold squote in H.
  now rewrite H.
Qed.




(** ** C3: what the repair does to quoted strings *)







Lemma length_span (p : ascii -> bool) (s : string) :
  String.length s
  = String.length (fst (span p s)) + String.length (snd (span p s)).
Proof.
  destruct (span_spec p s) as (H & _ & _). rewrite <- H at 1. apply length_app_str.
Qed.










(** ** C8: how the extraction fails *)

Lemma json_loads_exn (s : string) (e : exn) :
  snd (json_loads s) = Raise e ->
  (exists m pos, e = JSONDecodeError m pos) \/ e = OutsideLatin1 \/ e = RecursionError.
Proof.
  unfold json_loads. destruct (scan_once _ _) as [v r | m k | |]; cbn.
  - destruct (skip_ws r); cbn; [discriminate|]. intros H. inversion H. eauto.
  - intros H. inversion H. eauto.
  - intros H. inversion H. auto.
  - intros H. inversion H. auto.
Qed.

(** The outcome of [fetch_bicycle_data] on a body that was received. *)
Lemma fetch_outcome (url raw : string) :
  snd (fetch_bicycle_data url (Return raw)) =
  match re_search array_pattern raw with
  | None => Raise (BicycleDataError "Could not find bicycleDataRaw in JS response" None)
  | Some None => Raise TypeError
  | Some (Some array_text) =>
      match snd (json_loads (repair array_text)) with
      | Return data =>
          match snd (py_len data) with
          | Return _ => Return data
          | Raise e => Raise e
          end
      | Raise e =>
          if is_json_decode_error e
          then Raise (BicycleDataError "Failed to parse JSON: " (Some e))
          else Raise e
      end
  end.
Proof.
  unfold fetch_bicycle_data, repair, quote_keys, requote_strings.
  cbn [emit bind].
  destruct (re_search array_pattern raw) as [[t|]|]; try reflexivity.
  cbn [lift]. rewrite bind_ret_l.
  destruct (json_loads _) as [l [data|e]] eqn:HJ.
  - cbn [bind emit ret snd]. destruct (py_len data) as [l' [n|e]] eqn:HL; cbn.
    + reflexivity.
    + destruct data; cbn in HL; inversion HL; reflexivity.
  - assert (He : snd (json_loads (re_sub quote_pattern in_dquotes
                                     (re_sub key_pattern in_dquotes t))) = Raise e)
      by now rewrite HJ.
    apply json_loads_exn in He as [(m & pos & ->) | [-> | ->]]; reflexivity.
Qed.


(** ** C2: array literals that the extraction reads back *)

Ltac char_cases c :=
  destruct c as [[] [] [] [] [] [] [] []]; vm_compute; intuition congruence.

Lemma word_char_plain (c : ascii) : is_word c = true -> plain_char c = true.
Proof. char_cases c. Qed.


Lemma nonzero_digit_digit (c : ascii) : between 49 57 c = true -> is_digit c = true.
Proof. char_cases c. Qed.



(** *** The repair, on a literal of the class *)




















(** *** The search, on a literal of the class *)
















(** *** The decoder, on a literal of the class *)











Lemma skip_ws_other (c : ascii) (t : string) :
  is_json_ws c = false -> skip_ws (String c t) = String c t.
Proof. intros H. unfold skip_ws. cbn [drop_while]. now rewrite H. Qed.










Lemma to_record_pairs (o : js_object) : to_record o = VDict (map to_pair o).
Proof. reflexivity. Qed.






Lemma scan_once_step (d : nat) (c : ascii) (t : string) :
  scan_once (S d) (String c t) =
  if Ascii.eqb c dquote then jmap VStr (scanstring (String.length (String c t)) t)
  else if Ascii.eqb c "{" then JSONObject (scan_once d) t
  else if Ascii.eqb c "[" then JSONArray (scan_once d) t
  else match scan_literal (String c t) with
       | Some (v, r) => JOk v r
       | None => JFail "Expecting value" (String.length (String c t))
       end.
Proof. reflexivity. Qed.






(** ** The extraction never fails in another way

    On a received body, [fetch_bicycle_data] returns a list, or raises one
    of its two errors; the only other outcome of the model is a text that
    escapes to a character beyond U+00FF. *)

Lemma rep_greedy_inv {R} (cls : ascii -> bool) (min : nat) (s : string)
    (k : string -> option R) (res : R) :
  rep_greedy cls min s k = Some res ->
  exists s', k s' = Some res /\ String.length s' <= String.length s.
Proof.
  revert min. induction s as [|c s IH]; intros min H.
  - cbn in H. destruct min; [|discriminate]. exists EmptyString. auto.
  - cbn [rep_greedy] in H.
    assert (Hstop : match min with O => k (String c s) | S _ => None end = Some res ->
                    exists s', k s' = Some res
                               /\ String.length s' <= String.length (String c s)).
    { destruct min; [|discriminate]. intros Hk. exists (String c s). auto. }
    destruct (cls c); [|now apply Hstop].
    destruct (rep_greedy cls (pred min) s k) as [r|] eqn:E; [|now apply Hstop].
    inversion H; subst r. destruct (IH _ E) as (s' & Hk & HL).
    exists s'. cbn [String.length]. split; [exact Hk | lia].
Qed.

Lemma rep_lazy_inv {R} (cls : ascii -> bool) (min : nat) (s : string)
    (k : string -> option R) (res : R) :
  rep_lazy cls min s k = Some res ->
  exists s', k s' = Some res /\ String.length s' <= String.length s.
Proof.
  revert min. induction s as [|c s IH]; intros min H.
  - cbn in H. destruct min; [|discriminate].
    destruct (k EmptyString) eqn:E; [|discriminate]. inversion H; subst.
    exists EmptyString. auto.
  - cbn [rep_lazy] in H.
    destruct (match min with O => k (String c s) | S _ => None end) as [r|] eqn:E.
    + inversion H; subst r. destruct min; [|discriminate].
      exists (String c s). auto.
    + destruct (cls c); [|discriminate]. destruct (IH _ H) as (s' & Hk & HL).
      exists s'. cbn [String.length]. split; [exact Hk | lia].
Qed.

Lemma strip_prefix_length (p s s' : string) :
  strip_prefix p s = Some s' ->
  String.length s = String.length p + String.length s'.
Proof.
  revert s. induction p as [|a p IH]; intros s H.
  - cbn in H. inversion H. reflexivity.
  - destruct s as [|b s]; [discriminate|]. cbn in H.
    destruct (Ascii.eqb a b); [|discriminate]. cbn. now rewrite (IH s H).
Qed.

(** Group 1 of a match of [array_pattern] starts with the opening
    bracket. *)
Lemma match_here_array_group (s rest : string) (g : option string) :
  match_here array_pattern s = Some (rest, g) ->
  exists t, g = Some (String "[" t).
Proof.
  unfold match_here, array_pattern. cbn [rmatch]. intros H.
  destruct (strip_prefix "const" s) as [s1|]; [|discriminate].
  apply rep_greedy_inv in H as (s2 & H & _).
  destruct (strip_prefix "bicycleDataRaw" s2) as [s3|]; [|discriminate].
  apply rep_greedy_inv in H as (s4 & H & _).
  destruct (strip_prefix "=" s4) as [s5|]; [|discriminate].
  apply rep_greedy_inv in H as (s6 & H & _).
  destruct (strip_prefix "[" s6) as [x|] eqn:Hx; [|discriminate].
  apply rep_lazy_inv in H as (s7 & H & HL).
  destruct (strip_prefix "]" s7) as [s8|] eqn:H8; [|discriminate].
  destruct (strip_prefix ";" s8) as [s9|]; [|discriminate].
  inversion H; subst. clear H.
  apply strip_prefix_length in H8. cbn [String.length] in H8.
  destruct s6 as [|b s6']; [discriminate|]. cbn [strip_prefix] in Hx.
  destruct (Ascii.eqb "[" b) eqn:Eb; [|discriminate].
  apply Ascii.eqb_eq in Eb. subst b. inversion Hx; subst x.
  cbn [String.length].
  destruct (S (String.length s6') - String.length s8) as [|m] eqn:Hm; [lia|].
  cbn [take_str]. eauto.
Qed.

Lemma re_search_array_group (s : string) (g : option string) :
  re_search array_pattern s = Some g -> exists t, g = Some (String "[" t).
Proof.
  induction s as [|c s IH]; cbn [re_search].
  - destruct (match_here array_pattern EmptyString) as [[rest g']|] eqn:E; [|discriminate].
    intros H. inversion H; subst. eapply match_here_array_group; eassumption.
  - destruct (match_here array_pattern (String c s)) as [[rest g']|] eqn:E; [|exact IH].
    intros H. inversion H; subst. eapply match_here_array_group; eassumption.
Qed.

Lemma repair_keeps_bracket (t : string) :
  repair (String "[" t) = String "[" (repair t).
Proof.
  unfold repair. rewrite quote_keys_other by reflexivity.
  now rewrite requote_other by reflexivity.
Qed.

(** *** The decoder has fuel enough *)

Lemma drop_while_length (p : ascii -> bool) (s : string) :
  String.length (drop_while p s) <= String.length s.
Proof.
  induction s as [|c s IH]; [cbn; lia|]. cbn [drop_while].
  destruct (p c); cbn [String.length]; lia.
Qed.

Lemma skip_ws_length (s : string) : String.length (skip_ws s) <= String.length s.
Proof. apply drop_while_length. Qed.

Lemma span_snd_length (p : ascii -> bool) (s : string) :
  String.length (snd (span p s)) <= String.length s.
Proof. rewrite (length_span p s). lia. Qed.

Lemma jmap_progress {A B} (f : A -> B) (x : jres A) (m : nat) :
  (x <> JTooDeep /\ forall v r, x = JOk v r -> String.length r < m) ->
  jmap f x <> JTooDeep /\ forall v r, jmap f x = JOk v r -> String.length r < m.
Proof.
  intros [H1 H2]. destruct x as [a rest| | |]; cbn; split; try discriminate;
    try congruence.
  intros v r E. inversion E; subst. eapply H2. reflexivity.
Qed.

Lemma scanstring_progress (n begin : nat) (s : string) :
  String.length s <= n ->
  scanstring begin s <> JTooDeep
  /\ forall k r, scanstring begin s = JOk k r -> String.length r < String.length s.
Proof.
  revert s. induction n as [|n IH]; intros s Hs.
  - destruct s; [|cbn in Hs; lia]. cbn. split; [discriminate | intros k r H; discriminate].
  - destruct s as [|c t]; [cbn; split; [discriminate | intros k r H; discriminate]|].
    cbn [String.length] in Hs.
    assert (Hrec : forall t', String.length t' <= String.length t ->
              forall ch, jmap (String ch) (scanstring begin t') <> JTooDeep
                         /\ forall k r, jmap (String ch) (scanstring begin t') = JOk k r ->
                                        String.length r < String.length (String c t)).
    { intros t' Ht' ch. apply jmap_progress. destruct (IH t' ltac:(lia)) as [H1 H2].
      split; [exact H1|]. intros k r E. specialize (H2 k r E). cbn [String.length]. lia. }
    cbn [scanstring]. destruct (Ascii.eqb c dquote).
    { split; [discriminate|]. intros k r E. inversion E; subst. cbn. lia. }
    destruct (Ascii.eqb c backslash).
    + destruct t as [|e t']; [split; [discriminate | intros k r E; discriminate]|].
      destruct (Ascii.eqb e "u").
      * destruct t' as [|h1 [|h2 [|h3 [|h4 t'']]]];
          try (split; [discriminate | intros k r E; discriminate]).
        destruct (hex4 h1 h2 h3 h4) as [x|];
          [|split; [discriminate | intros k r E; discriminate]].
        destruct (x <? 256)%N; [|split; [discriminate | intros k r E; discriminate]].
        apply Hrec. cbn [String.length]. lia.
      * destruct (unescape e); [|split; [discriminate | intros k r E; discriminate]].
        apply Hrec. cbn [String.length]. lia.
    + destruct (code c <? 32)%N; [split; [discriminate | intros k r E; discriminate]|].
      apply Hrec. lia.
Qed.

Lemma scan_number_progress (s : string) (v : value) (r : string) :
  scan_number s = Some (v, r) -> String.length r < String.length s.
Proof.
  unfold scan_number.
  destruct (scan_int s) as [[[neg ip] r1]|] eqn:Hi; [|discriminate].
  assert (H1 : String.length r1 < String.length s).
  { unfold scan_int in Hi.
    assert (G : forall neg0 s1, String.length s1 <= String.length s ->
                match s1 with
                | String c t =>
                    if Ascii.eqb c "0" then Some (neg0, "0", t)
                    else if between 49 57 c then
                           let '(ds, r) := span is_digit s1 in Some (neg0, ds, r)
                         else None
                | EmptyString => None
                end = Some (neg, ip, r1) ->
                String.length r1 < String.length s).
    { intros neg0 s1 Hs1 E. destruct s1 as [|c t]; [discriminate|].
      cbn [String.length] in Hs1. destruct (Ascii.eqb c "0").
      - inversion E; subst. lia.
      - destruct (between 49 57 c) eqn:Hc; [|discriminate].
        pose proof (span_snd_length is_digit t) as HL.
        cbn [span] in E. rewrite (nonzero_digit_digit c Hc) in E.
        destruct (span is_digit t) as [a b]. cbn [snd] in HL.
        inversion E; subst. lia. }
    destruct s as [|c t]; [discriminate|].
    destruct (Ascii.eqb c "-");
      [apply (G true t) | apply (G false (String c t))];
      try exact Hi; cbn [String.length]; lia. }
  assert (H2 : String.length (snd (scan_frac r1)) <= String.length r1).
  { unfold scan_frac. destruct r1 as [|c t]; [cbn; lia|].
    destruct (Ascii.eqb c "."); [|cbn; lia].
    pose proof (span_snd_length is_digit t) as HL.
    destruct (span is_digit t) as [a b]. cbn [snd] in HL.
    destruct (is_empty a); cbn [snd String.length]; lia. }
  destruct (scan_frac r1) as [fp r2]. cbn [snd] in H2.
  assert (H3 : String.length (snd (scan_exp r2)) <= String.length r2).
  { unfold scan_exp. destruct r2 as [|c t]; [cbn; lia|].
    destruct (Ascii.eqb c "e" || Ascii.eqb c "E"); [|cbn; lia].
    assert (Hsg : String.length (snd (take_sign t)) <= String.length t).
    { destruct t as [|x t']; [cbn; lia|].
      destruct x as [[] [] [] [] [] [] [] []]; cbn; lia. }
    destruct (take_sign t) as [sg t1]. cbn [snd] in Hsg.
    pose proof (span_snd_length is_digit t1) as HL.
    destruct (span is_digit t1) as [a b]. cbn [snd] in HL.
    destruct (is_empty a); cbn [snd String.length]; lia. }
  destruct (scan_exp r2) as [ex r3]. cbn [snd] in H3.
  intros E. assert (r = r3) by (destruct fp, ex; inversion E; reflexivity).
  subst r. lia.
Qed.

Lemma scan_literal_progress (s : string) (v : value) (r : string) :
  scan_literal s = Some (v, r) -> String.length r < String.length s.
Proof.
  unfold scan_literal.
  repeat match goal with
         | |- context [strip_prefix ?p s] =>
             let E := fresh "E" in
             destruct (strip_prefix p s) eqn:E;
             [apply strip_prefix_length in E; cbn [String.length] in E;
              intros H; inversion H; subst; lia|]
         | |- context [scan_number s] =>
             let E := fresh "E" in
             destruct (scan_number s) as [[v' r']|] eqn:E;
             [apply scan_number_progress in E; intros H; inversion H; subst; exact E|]
         end.
  discriminate.
Qed.

Lemma array_items_progress (scan : string -> jres value) (n fuel : nat) :
  progresses scan n ->
  forall (acc : list value) (s : string),
    String.length s <= n -> String.length s < fuel ->
    array_items scan fuel acc s <> JTooDeep
    /\ forall v r, array_items scan fuel acc s = JOk v r ->
                   String.length r < String.length s /\ exists l, v = VList l.
Proof.
  intros Hscan. induction fuel as [|fuel IH]; intros acc s Hn Hf; [lia|].
  cbn [array_items]. destruct (Hscan s Hn) as [H1 H2].
  destruct (scan s) as [v0 r0| | |] eqn:E;
    try (split; [discriminate | intros v r H; discriminate]);
    [|now contradiction H1].
  specialize (H2 v0 r0 eq_refl). pose proof (skip_ws_length r0) as Hw.
  destruct (skip_ws r0) as [|c t];
    [split; [discriminate | intros v r H; discriminate]|].
  cbn [String.length] in Hw.
  destruct (Ascii.eqb c "]").
  - split; [discriminate|]. intros v r H. inversion H; subst. split; [lia | eauto].
  - destruct (Ascii.eqb c ",");
      [|split; [discriminate | intros v r H; discriminate]].
    pose proof (skip_ws_length t) as Hw'.
    destruct (IH (v0 :: acc) (skip_ws t) ltac:(lia) ltac:(lia)) as [G1 G2].
    split; [exact G1|]. intros v r H. destruct (G2 v r H) as [G3 G4].
    split; [lia | exact G4].
Qed.

Lemma JSONArray_progress (scan : string -> jres value) (n : nat) (s : string) :
  progresses scan n -> String.length s <= n ->
  JSONArray scan s <> JTooDeep
  /\ forall v r, JSONArray scan s = JOk v r ->
                 String.length r <= String.length s /\ exists l, v = VList l.
Proof.
  intros Hscan Hn. unfold JSONArray. pose proof (skip_ws_length s) as Hw.
  destruct (skip_ws s) as [|c t] eqn:E.
  - destruct (array_items_progress scan n 1 Hscan [] EmptyString) as [G1 G2];
      [cbn; lia | cbn; lia |].
    split; [exact G1|]. intros v r H. destruct (G2 v r H) as [G3 G4].
    cbn in G3. lia.
  - cbn [String.length] in Hw. destruct (Ascii.eqb c "]").
    + split; [discriminate|]. intros v r H. inversion H; subst. split; [lia | eauto].
    + destruct (array_items_progress scan n (S (String.length (String c t))) Hscan []
                  (String c t)) as [G1 G2]; [cbn [String.length]; lia | lia |].
      split; [exact G1|]. intros v r H. destruct (G2 v r H) as [G3 G4].
      split; [cbn [String.length] in G3; lia | exact G4].
Qed.

Lemma object_members_progress (scan : string -> jres value) (n fuel : nat) :
  progresses scan n ->
  forall (pairs : list (string * value)) (begin : nat) (s : string),
    String.length s <= n -> String.length s < fuel ->
    object_members scan fuel pairs begin s <> JTooDeep
    /\ forall v r, object_members scan fuel pairs begin s = JOk v r ->
                   String.length r < String.length s.
Proof.
  intros Hscan. induction fuel as [|fuel IH]; intros pairs begin s Hn Hf; [lia|].
  cbn [object_members].
  destruct (scanstring_progress (String.length s) begin s (le_n _)) as [H1 H2].
  destruct (scanstring begin s) as [key r0| | |] eqn:E;
    try (split; [discriminate | intros v r H; discriminate]);
    [|now contradiction H1].
  specialize (H2 key r0 eq_refl). pose proof (skip_ws_length r0) as Hw.
  destruct (skip_ws r0) as [|c0 r1];
    [split; [discriminate | intros v r H; discriminate]|].
  cbn [String.length] in Hw.
  destruct (negb (Ascii.eqb c0 ":"));
    [split; [discriminate | intros v r H; discriminate]|].
  pose proof (skip_ws_length r1) as Hw1.
  destruct (Hscan (skip_ws r1) ltac:(lia)) as [S1 S2].
  destruct (scan (skip_ws r1)) as [v0 r2| | |] eqn:Es;
    try (split; [discriminate | intros v r H; discriminate]);
    [|now contradiction S1].
  specialize (S2 v0 r2 eq_refl). pose proof (skip_ws_length r2) as Hw2.
  destruct (skip_ws r2) as [|c t];
    [split; [discriminate | intros v r H; discriminate]|].
  cbn [String.length] in Hw2.
  destruct (Ascii.eqb c "}").
  - split; [discriminate|]. intros v r H. inversion H; subst. lia.
  - destruct (Ascii.eqb c ",");
      [|split; [discriminate | intros v r H; discriminate]].
    pose proof (skip_ws_length t) as Hw3.
    destruct (skip_ws t) as [|q t'];
      [split; [discriminate | intros v r H; discriminate]|].
    cbn [String.length] in Hw3.
    destruct (Ascii.eqb q dquote);
      [|split; [discriminate | intros v r H; discriminate]].
    destruct (IH ((key, v0) :: pairs) (S (String.length t')) t'
                ltac:(lia) ltac:(lia)) as [G1 G2].
    split; [exact G1|]. intros v r H. specialize (G2 v r H). lia.
Qed.

Lemma JSONObject_progress (scan : string -> jres value) (n : nat) (s : string) :
  progresses scan n -> String.length s <= n ->
  JSONObject scan s <> JTooDeep
  /\ forall v r, JSONObject scan s = JOk v r -> String.length r <= String.length s.
Proof.
  intros Hscan Hn. unfold JSONObject. pose proof (skip_ws_length s) as Hw.
  destruct (skip_ws s) as [|c t];
    [split; [discriminate | intros v r H; discriminate]|].
  cbn [String.length] in Hw. destruct (Ascii.eqb c "}").
  - split; [discriminate|]. intros v r H. inversion H; subst. lia.
  - destruct (Ascii.eqb c dquote);
      [|split; [discriminate | intros v r H; discriminate]].
    destruct (object_members_progress scan n (S (String.length t)) Hscan []
                (String.length (String c t)) t ltac:(lia) ltac:(lia)) as [G1 G2].
    split; [exact G1|]. intros v r H. specialize (G2 v r H). lia.
Qed.

(** With more fuel than characters, [scan_once] does not run out. *)
Lemma scan_once_progress (d : nat) : progresses (scan_once (S d)) d.
Proof.
  induction d as [|d IH]; intros s Hs.
  - destruct s; [|cbn in Hs; lia]. cbn. split; [discriminate | intros v r H; discriminate].
  - destruct s as [|c t].
    + cbn. split; [discriminate | intros v r H; discriminate].
    + rewrite scan_once_step. cbn [String.length] in Hs.
      assert (Hd : progresses (scan_once (S d)) (String.length t)).
      { intros s' Hs'. apply IH. lia. }
      destruct (Ascii.eqb c dquote).
      { apply jmap_progress.
        destruct (scanstring_progress (String.length t) (String.length (String c t)) t
                    (le_n _)) as [H1 H2].
        split; [exact H1|]. intros k r E. specialize (H2 k r E). cbn [String.length]. lia. }
      destruct (Ascii.eqb c "{").
      { destruct (JSONObject_progress (scan_once (S d)) (String.length t) t Hd (le_n _))
          as [H1 H2].
        split; [exact H1|]. intros v r E. specialize (H2 v r E). cbn [String.length]. lia. }
      destruct (Ascii.eqb c "[").
      { destruct (JSONArray_progress (scan_once (S d)) (String.length t) t Hd (le_n _))
          as [H1 H2].
        split; [exact H1|]. intros v r E. destruct (H2 v r E). cbn [String.length]. lia. }
      destruct (scan_literal (String c t)) as [[v0 r0]|] eqn:E.
      * split; [discriminate|]. intros v r H. inversion H; subst.
        now apply scan_literal_progress in E.
      * split; [discriminate | intros v r H; discriminate].
Qed.

(** [json.loads] never exhausts the fuel it is given. *)
Lemma json_loads_fuel (s : string) : snd (json_loads s) <> Raise RecursionError.
Proof.
  unfold json_loads.
  destruct (scan_once_progress (String.length s) (skip_ws s) (skip_ws_length s))
    as [H _].
  destruct (scan_once (S (String.length s)) (skip_ws s)) as [v r | m k | |];
    cbn; try discriminate; [|now contradiction H].
  destruct (skip_ws r); cbn; discriminate.
Qed.

(** A text that opens with a bracket decodes to a list, if it decodes. *)
Lemma json_loads_bracket (t : string) (v : value) :
  snd (json_loads (String "[" t)) = Return v -> exists l, v = VList l.
Proof.
  unfold json_loads. rewrite skip_ws_other by reflexivity.
  rewrite scan_once_step.
  change (Ascii.eqb "[" dquote) with false. change (Ascii.eqb "[" "{") with false.
  change (Ascii.eqb "[" "[") with true. cbv iota.
  destruct (JSONArray_progress (scan_once (String.length (String "[" t)))
              (String.length t) t) as [_ H2].
  - intros s' Hs'. apply scan_once_progress. exact Hs'.
  - lia.
  - destruct (JSONArray _ t) as [v0 r | m k | |]; cbn; try discriminate.
    destruct (H2 v0 r eq_refl) as [_ Hl].
    destruct (skip_ws r); cbn; [|discriminate]. intros H. inversion H; subst. exact Hl.
Qed.

(** On a received body the extraction returns a list or raises its error;
    a body that escapes to a character beyond U+00FF is outside the
    model. *)
Lemma fetch_outcomes (url raw : string) :
  (exists l, snd (fetch_bicycle_data url (Return raw)) = Return (VList l))
  \/ (exists msg cause,
         snd (fetch_bicycle_data url (Return raw)) = Raise (BicycleDataError msg cause))
  \/ snd (fetch_bicycle_data url (Return raw)) = Raise OutsideLatin1.
Proof.
  rewrite fetch_outcome.
  destruct (re_search array_pattern raw) as [g|] eqn:Hs; [|right; left; eauto].
  destruct (re_search_array_group raw g Hs) as [t ->].
  rewrite repair_keeps_bracket.
  pose proof (json_loads_fuel (String "[" (repair t))) as Hf.
  pose proof (json_loads_bracket (repair t)) as Hb.
  destruct (snd (json_loads (String "[" (repair t)))) as [data|e] eqn:HJ.
  - destruct (Hb data eq_refl) as [l ->]. left. exists l. reflexivity.
  - destruct (json_loads_exn _ _ HJ) as [(m & pos & ->) | [-> | ->]].
    + right; left. cbn. eauto.
    + right; right. reflexivity.
    + now contradiction Hf.
Qed.


(** * Further properties

    Of the filter, the extraction, the report and the program. *)

(** ** Records that the filter rejects or returns *)

Lemma missing_field_never_accepted (item : record) (field : string) (requested : value)
    (filters : list (string * value)) (log : list log_record) :
  dict_get field item = None -> In (field, requested) filters ->
  _item_matches_filters item filters <> (log, Return true).
Proof.
  intros Hg Hin. revert log. induction filters as [|[f v] rest IH]; [contradiction|].
  intros log. cbn [_item_matches_filters].
  destruct Hin as [E | Hin].
  - inversion E; subst. rewrite Hg. discriminate.
  - destruct (dict_get f item) as [iv|]; [|discriminate].
    destruct (mem_str f MAX_THRESHOLD_FIELDS).
    + destruct (_check_threshold_filter iv v f) as [l [b|e]]; cbn; [|discriminate].
      destruct b; [|discriminate].
      destruct (_item_matches_filters item rest) as [l' r] eqn:E.
      intros H. inversion H; subst. now apply (IH Hin l').
    + destruct (String.eqb _ _); [now apply IH | discriminate].
Qed.

Lemma matches_true (item : record) (filters : list (string * value)) :
  matches item filters = true ->
  exists log, _item_matches_filters item filters = (log, Return true).
Proof.
  unfold matches. destruct (_item_matches_filters item filters) as [l [b|e]]; cbn;
    [|discriminate].
  intros ->. now exists l.
Qed.

Lemma filter_returns_members (data : list record) (filters : list (string * value))
    (log : list log_record) (out : list record) :
  filter_bicycle_data data filters = (log, Return out) ->
  Permutation out (survivors data filters).
Proof.
  intros H. apply filter_returns_inv in H as (-> & _ & _).
  symmetry. apply sorted_records_perm.
Qed.

(** X1. A record that lacks a field of the filter mapping is rejected: the
    entry answers False at once, without a warning and without looking at
    the entries after it, the decision on the record is never True, and the
    record is in no list that the filter returns. *)
Theorem missing_field_rejects
    (item : record) (field : string) (requested : value)
    (filters : list (string * value)) :
  dict_get field item = None -> In (field, requested) filters ->
  (forall rest, _item_matches_filters item ((field, requested) :: rest) = ret false)
  /\ (forall log, _item_matches_filters item filters <> (log, Return true))
  /\ (forall data log out,
         filter_bicycle_data data filters = (log, Return out) -> ~ In item out).
Proof.
  intros Hg Hin. split; [|split].
  - intros rest. cbn [_item_matches_filters]. now rewrite Hg.
  - intros log. now apply (missing_field_never_accepted item field requested).
  - intros data log out H Hout.
    apply filter_returns_members in H.
    apply (Permutation_in _ H) in Hout. apply filter_In in Hout as [_ Hm].
    apply matches_true in Hm as [l Hm].
    now apply (missing_field_never_accepted item field requested filters l).
Qed.

Lemma missing_field_rejects_witness :
  dict_get "style" [("brand", VStr "Bell")] = None
  /\ In ("style", VStr "Road") [("brand", VStr "bell"); ("style", VStr "Road")]
  /\ forall log, _item_matches_filters [("brand", VStr "Bell")]
                   [("brand", VStr "bell"); ("style", VStr "Road")]
                 <> (log, Return true).
Proof.
  split; [reflexivity|]. split; [right; left; reflexivity|].
  apply (missing_field_rejects [("brand", VStr "Bell")] "style" (VStr "Road")
           [("brand", VStr "bell"); ("style", VStr "Road")]);
    [reflexivity | right; left; reflexivity].
Defined.

(** X2. A list that the filter returns is a rearrangement of the records of
    the input on which the decision is True: it holds those records and no
    other, each as often as the input, and is never longer than the
    input. *)
Theorem filter_returns_a_selection
    (data : list record) (filters : list (string * value))
    (log : list log_record) (out : list record) :
  filter_bicycle_data data filters = (log, Return out) ->
  Permutation out (survivors data filters)
  /\ (forall r, In r out <-> In r data /\ matches r filters = true)
  /\ List.length out <= List.length data.
Proof.
  intros H. pose proof (filter_returns_members _ _ _ _ H) as HP.
  split; [exact HP|]. split.
  - intros r. split; intros Hr.
    + apply (Permutation_in _ HP) in Hr. now apply filter_In in Hr.
    + apply (Permutation_in _ (Permutation_sym HP)). now apply filter_In.
  - rewrite (Permutation_length HP). apply filter_length_le.
Qed.

Lemma filter_returns_a_selection_witness :
  filter_bicycle_data [[("cost", VStr "$300")]; [("cost", VStr "$50")]]
                      [("cost", VInt 100)]
  = ([(INFO, "Filtered 2 items down to 1 items")], Return [[("cost", VStr "$50")]])
  /\ Permutation [[("cost", VStr "$50")]]
       (survivors [[("cost", VStr "$300")]; [("cost", VStr "$50")]] [("cost", VInt 100)]).
Proof.
  assert (H : filter_bicycle_data [[("cost", VStr "$300")]; [("cost", VStr "$50")]]
                [("cost", VInt 100)]
              = ([(INFO, "Filtered 2 items down to 1 items")],
                 Return [[("cost", VStr "$50")]])) by (vm_compute; reflexivity).
  split; [exact H|].
  exact (proj1 (filter_returns_a_selection _ _ _ _ H)).
Defined.

Lemma item_matches_app (item : record) (f g : list (string * value)) :
  _item_matches_filters item (f ++ g)%list
  = (b <- _item_matches_filters item f ;;
     if b then _item_matches_filters item g else ret false).
Proof.
  induction f as [|[field v] rest IH].
  - cbn [app _item_matches_filters]. now rewrite bind_ret_l.
  - cbn [app _item_matches_filters].
    destruct (dict_get field item) as [iv|]; [|reflexivity].
    destruct (mem_str field MAX_THRESHOLD_FIELDS).
    + destruct (_check_threshold_filter iv v field) as [l [ok|e]]; [|reflexivity].
      destruct ok.
      * rewrite IH. cbn [bind].
        destruct (_item_matches_filters item rest) as [l1 [b|e]]; [|reflexivity].
        cbn [bind].
        destruct (if b then _item_matches_filters item g else ret false) as [l2 r].
        now rewrite app_assoc.
      * cbn. now rewrite !app_nil_r.
    + destruct (String.eqb _ _); [exact IH | reflexivity].
Qed.

(** X3. The entries of the mapping are evaluated in order and the first one
    that rejects the record, or raises, ends the evaluation: entries that
    follow it change neither the answer nor the log. Entries that accept the
    record hand it on to the entries after them. *)
Theorem rejection_is_final
    (item : record) (f g : list (string * value)) (log : list log_record) :
  (_item_matches_filters item f = (log, Return false) ->
   _item_matches_filters item (f ++ g)%list = (log, Return false))
  /\ (forall e, _item_matches_filters item f = (log, Raise e) ->
                _item_matches_filters item (f ++ g)%list = (log, Raise e))
  /\ (_item_matches_filters item f = (log, Return true) ->
      _item_matches_filters item (f ++ g)%list
      = (List.app log (fst (_item_matches_filters item g)),
         snd (_item_matches_filters item g))).
Proof.
  rewrite item_matches_app. split; [|split].
  - intros ->. cbn. now rewrite app_nil_r.
  - intros e ->. reflexivity.
  - intros ->. cbn. now destruct (_item_matches_filters item g).
Qed.

Lemma rejection_is_final_witness :
  _item_matches_filters [("brand", VStr "Bell"); ("score", VInt (10 ^ 400))]
    [("brand", VStr "Giro")] = ([], Return false)
  /\ _item_matches_filters [("brand", VStr "Bell"); ("score", VInt (10 ^ 400))]
       ([("brand", VStr "Giro")] ++ [("score", VInt 5)])%list = ([], Return false).
Proof.
  assert (H : _item_matches_filters [("brand", VStr "Bell"); ("score", VInt (10 ^ 400))]
                [("brand", VStr "Giro")] = ([], Return false)) by reflexivity.
  split; [exact H|].
  exact (proj1 (rejection_is_final _ _ [("score", VInt 5)] _) H).
Defined.


(** ** What the filter logs *)









(** ** Thresholds *)

(** X6. With the mapping score: X, where X converts to the number x, a
    record is accepted exactly when it has a score that [float] converts to
    a number not above x. The score is converted as it is: a ValueError or
    TypeError rejects the record with one warning, so that the text $5 is
    rejected as a score; a record without score is rejected silently. *)
Theorem score_threshold_inclusion (r : record) (X : value) (x : float) :
  py_float X = ret x ->
  (_item_matches_filters r [("score", X)] = ret true
   <-> exists v c, dict_get "score" r = Some v /\ py_float v = ret c
                   /\ float_le c x = true)
  /\ (forall v e, dict_get "score" r = Some v -> py_float v = raise e ->
                  is_value_or_type_error e = true ->
                  _item_matches_filters r [("score", X)]
                  = ([conversion_warning "score" v X], Return false))
  /\ _item_matches_filters [("score", VStr "$5")] [("score", X)]
     = ([conversion_warning "score" (VStr "$5") X], Return false)
  /\ (dict_get "score" r = None -> _item_matches_filters r [("score", X)] = ret false).
Proof.
  intros HX.
  assert (Hone : forall v, dict_get "score" r = Some v ->
            _item_matches_filters r [("score", X)] =
            match py_float v with
            | (_, Return c) => ([], Return (float_le c x))
            | (_, Raise e) =>
                if is_value_or_type_error e
                then ([conversion_warning "score" v X], Return false)
                else ([], Raise e)
            end).
  { intros v Hv. cbn [_item_matches_filters]. rewrite Hv.
    change (mem_str "score" MAX_THRESHOLD_FIELDS) with true. cbv iota.
    rewrite check_threshold_unfold, HX.
    change (item_number "score" v) with (py_float v).
    destruct (py_float v) as [l [c|e]].
    - cbn. now destruct (float_le c x).
    - destruct (is_value_or_type_error e); reflexivity. }
  split; [|split; [|split]].
  - split.
    + intros H. destruct (dict_get "score" r) as [v|] eqn:Hv.
      * rewrite (Hone v eq_refl) in H.
        pose proof (py_float_silent v) as Hs.
        destruct (py_float v) as [l [c|e]] eqn:Hc; cbn in Hs; subst l.
        -- exists v, c. inversion H. auto.
        -- destruct (is_value_or_type_error e); discriminate.
      * cbn [_item_matches_filters] in H. rewrite Hv in H. discriminate.
    + intros (v & c & Hv & Hc & Hle). rewrite (Hone v Hv), Hc. cbn. now rewrite Hle.
  - intros v e Hv He Hcls. rewrite (Hone v Hv), He. cbn. now rewrite Hcls.
  - cbn [_item_matches_filters dict_get]. change (String.eqb "score" "score") with true.
    change (mem_str "score" MAX_THRESHOLD_FIELDS) with true. cbv iota.
    rewrite check_threshold_unfold.
    change (item_number "score" (VStr "$5")) with (@raise float ValueError).
    reflexivity.
  - intros Hv. cbn [_item_matches_filters]. now rewrite Hv.
Qed.

Lemma score_threshold_inclusion_witness :
  py_float (VInt 100) = ret (S754_finite false 7036874417766400 (-46))
  /\ (_item_matches_filters [("score", VStr "12.5")] [("score", VInt 100)] = ret true
      <-> exists v c, dict_get "score" [("score", VStr "12.5")] = Some v
                      /\ py_float v = ret c
                      /\ float_le c (S754_finite false 7036874417766400 (-46)) = true).
Proof.
  assert (H : py_float (VInt 100) = ret (S754_finite false 7036874417766400 (-46)))
    by (vm_compute; reflexivity).
  split; [exact H|].
  exact (proj1 (score_threshold_inclusion [("score", VStr "12.5")] (VInt 100) _ H)).
Defined.

Lemma float_le_nan (c x : float) :
  is_nan c = true \/ is_nan x = true -> float_le c x = false.
Proof. intros [H|H]; revert H; float_cases. Qed.

(** X7. When both sides of a threshold comparison convert, the test answers
    the comparison of the two numbers and logs nothing. It follows that a
    threshold that is not a number, or a value that is not a number, rejects
    the record, and that the threshold positive infinity accepts every value
    that is a number. *)
Theorem threshold_at_nan_and_infinity
    (iv fv : value) (field : string) (c x : float) :
  item_number field iv = ret c -> py_float fv = ret x ->
  _check_threshold_filter iv fv field = ret (float_le c x)
  /\ (is_nan c = true \/ is_nan x = true ->
      _check_threshold_filter iv fv field = ret false)
  /\ (is_nan c = false -> x = pos_inf ->
      _check_threshold_filter iv fv field = ret true).
Proof.
  intros Hc Hx.
  assert (E : _check_threshold_filter iv fv field = ret (float_le c x)).
  { rewrite check_threshold_unfold, Hc, Hx. reflexivity. }
  split; [exact E|]. split.
  - intros H. now rewrite E, float_le_nan.
  - intros Hn ->. now rewrite E, float_le_pos_inf.
Qed.

Lemma threshold_at_nan_and_infinity_witness :
  item_number "score" (VInt 5) = ret (S754_finite false 5629499534213120 (-50))
  /\ py_float (VFloat S754_nan) = ret S754_nan
  /\ _check_threshold_filter (VInt 5) (VFloat S754_nan) "score" = ret false.
Proof.
  assert (H1 : item_number "score" (VInt 5)
               = ret (S754_finite false 5629499534213120 (-50)))
    by (vm_compute; reflexivity).
  assert (H2 : py_float (VFloat S754_nan) = ret S754_nan) by reflexivity.
  split; [exact H1|]. split; [exact H2|].
  apply (proj1 (proj2 (threshold_at_nan_and_infinity _ _ _ _ _ H1 H2))).
  right. reflexivity.
Defined.

(** ** The order of the entries, within the range of floats *)

Lemma threshold_field_cases (field : string) :
  mem_str field MAX_THRESHOLD_FIELDS = true -> field = "cost" \/ field = "score".
Proof.
  unfold mem_str, MAX_THRESHOLD_FIELDS. cbn [existsb].
  destruct (String.eqb field "cost") eqn:E1; [apply String.eqb_eq in E1; auto|].
  destruct (String.eqb field "score") eqn:E2; [apply String.eqb_eq in E2; auto|].
  discriminate.
Qed.

Lemma entry_never_raises (item : record) (entry : string * value) :
  float_fits (snd entry) = true ->
  (forall v, dict_get "score" item = Some v -> float_fits v = true) ->
  entry_raises item entry = false.
Proof.
  destruct entry as [field fv]. cbn [snd]. intros Hf Hs. unfold entry_raises.
  destruct (dict_get field item) as [iv|] eqn:Hg; [|reflexivity].
  destruct (mem_str field MAX_THRESHOLD_FIELDS) eqn:Hm; [|reflexivity].
  assert (Hi : String.eqb field "cost" = true \/ float_fits iv = true).
  { destruct (threshold_field_cases field Hm) as [-> | ->]; [now left|].
    right. now apply Hs. }
  now destruct (check_threshold_returns iv fv field Hi Hf) as (l & b & ->).
Qed.

(** The outcome of the filter when the decision on every record returns. *)
Lemma filter_outcome_of_survivors (data : list record) (filters : list (string * value)) :
  Forall (fun r => returns (_item_matches_filters r filters)) data ->
  snd (filter_bicycle_data data filters) =
  match data with
  | [] => Return []
  | _ =>
      match snd (keyed (survivors data filters)) with
      | Return ks => Return (map snd (sort_by_key ks))
      | Raise e => Raise (BicycleDataError "Failed to filter data: " (Some e))
      end
  end.
Proof.
  intros HR. rewrite filter_bicycle_data_unfold.
  destruct data as [|d0 data']; [reflexivity|].
  destruct (collect_matches_total _ _ HR) as [l1 Hc].
  unfold filter_try. rewrite Hc. fold (survivors (d0 :: data') filters).
  cbn [bind].
  destruct (keyed (survivors (d0 :: data') filters)) as [l2 [ks|e]]; reflexivity.
Qed.

(** X8. When no integer among the values of the mapping and the scores of
    the records is beyond the range of floats, the order of the entries of
    the mapping changes neither the decision on any record nor the outcome
    of the filter: the same list is returned, or the same error raised. *)
Theorem entry_order_is_irrelevant_within_float_range
    (data : list record) (filters filters' : list (string * value)) :
  Permutation filters filters' ->
  Forall (fun e => float_fits (snd e) = true) filters ->
  Forall (fun r => forall v, dict_get "score" r = Some v -> float_fits v = true) data ->
  snd (filter_bicycle_data data filters) = snd (filter_bicycle_data data filters')
  /\ forall r, In r data ->
       snd (_item_matches_filters r filters) = snd (_item_matches_filters r filters').
Proof.
  intros HP HF HD.
  assert (HF' : Forall (fun e => float_fits (snd e) = true) filters').
  { apply Forall_forall. intros e He. rewrite Forall_forall in HF. apply HF.
    eapply Permutation_in; [symmetry; exact HP | exact He]. }
  assert (Hitem : forall r, In r data ->
            snd (_item_matches_filters r filters) = snd (_item_matches_filters r filters')).
  { intros r Hr. apply matches_order_irrelevant; [exact HP|].
    apply forallb_forall. intros e He. apply negb_true_iff.
    apply entry_never_raises.
    - rewrite Forall_forall in HF. now apply HF.
    - rewrite Forall_forall in HD. now apply HD. }
  split; [|exact Hitem].
  rewrite !filter_outcome_of_survivors.
  - assert (Hs : survivors data filters = survivors data filters').
    { unfold survivors. apply filter_ext_in. intros r Hr. unfold matches.
      now rewrite (Hitem r Hr). }
    now rewrite Hs.
  - eapply Forall_impl; [|exact HD]. intros r Hr. now apply item_matches_returns.
  - eapply Forall_impl; [|exact HD]. intros r Hr. now apply item_matches_returns.
Qed.

Lemma entry_order_is_irrelevant_within_float_range_witness :
  Permutation [("score", VInt 5); ("brand", VStr "Giro")]
              [("brand", VStr "Giro"); ("score", VInt 5)]
  /\ Forall (fun e => float_fits (snd e) = true) [("score", VInt 5); ("brand", VStr "Giro")]
  /\ Forall (fun r => forall v, dict_get "score" r = Some v -> float_fits v = true)
       [[("brand", VStr "Bell"); ("score", VStr "n/a")]]
  /\ snd (filter_bicycle_data [[("brand", VStr "Bell"); ("score", VStr "n/a")]]
            [("score", VInt 5); ("brand", VStr "Giro")])
     = snd (filter_bicycle_data [[("brand", VStr "Bell"); ("score", VStr "n/a")]]
              [("brand", VStr "Giro"); ("score", VInt 5)]).
Proof.
  assert (H1 : Permutation [("score", VInt 5); ("brand", VStr "Giro")]
                 [("brand", VStr "Giro"); ("score", VInt 5)]) by apply perm_swap.
  assert (H2 : Forall (fun e => float_fits (snd e) = true)
                 [("score", VInt 5); ("brand", VStr "Giro")]) by (repeat constructor).
  assert (H3 : Forall (fun r => forall v, dict_get "score" r = Some v -> float_fits v = true)
                 [[("brand", VStr "Bell"); ("score", VStr "n/a")]]).
  { repeat constructor. intros v H. vm_compute in H. inversion H. reflexivity. }
  split; [exact H1|]. split; [exact H2|]. split; [exact H3|].
  exact (proj1 (entry_order_is_irrelevant_within_float_range _ _ _ H1 H2 H3)).
Defined.

(** ** Filtering what was filtered *)

Lemma float_le_not_lt (x y : float) : float_le x y = true -> float_lt y x = false.
Proof. float_cases. Qed.

Section SortedLists.
Context {A : Type}.
Implicit Types (x y : float * A) (l : list (float * A)).

Lemma sort_by_key_sorted_id l : StronglySorted key_le l -> sort_by_key l = l.
Proof.
  induction 1 as [|x t Hs IH Hx]; [reflexivity|].
  cbn [sort_by_key fold_right]. fold (sort_by_key t). rewrite IH.
  destruct t as [|y t']; [reflexivity|].
  cbn [insert_by_key]. inversion Hx as [|? ? Hxy _]; subst.
  now rewrite (float_le_not_lt _ _ Hxy).
Qed.

Lemma insert_by_key_front x l :
  Forall (fun y => float_lt (fst y) (fst x) = false) l -> insert_by_key x l = x :: l.
Proof.
  destruct l as [|y t]; [reflexivity|]. intros H. inversion H; subst.
  cbn [insert_by_key]. now rewrite H2.
Qed.

Lemma filter_insert_by_key (q : float * A -> bool) x l :
  is_nan (fst x) = false ->
  Forall (fun y => is_nan (fst y) = false) l ->
  StronglySorted key_le l ->
  filter q (insert_by_key x l)
  = if q x then insert_by_key x (filter q l) else filter q l.
Proof.
  intros Hx Hl Hs. induction Hs as [|y t Hs IH Hy].
  - cbn. now destruct (q x).
  - inversion Hl as [|? ? Hny Hnt]; subst. specialize (IH Hnt).
    cbn [insert_by_key]. destruct (float_lt (fst y) (fst x)) eqn:E.
    + cbn [filter]. rewrite IH. destruct (q y), (q x); try reflexivity.
      cbn [insert_by_key]. now rewrite E.
    + change (filter q (x :: y :: t))
        with (if q x then x :: filter q (y :: t) else filter q (y :: t)).
      destruct (q x); [|reflexivity].
      rewrite insert_by_key_front; [reflexivity|].
      assert (Hxy : float_le (fst x) (fst y) = true) by now apply float_total.
      assert (Hall : Forall (fun z => float_lt (fst z) (fst x) = false) (y :: t)).
      { constructor; [exact E|]. eapply Forall_impl; [|exact Hy].
        intros z Hz. apply float_le_not_lt. unfold key_le in Hz.
        eapply float_le_trans; eassumption. }
      apply Forall_forall. intros z Hz. apply filter_In in Hz as [Hz _].
      rewrite Forall_forall in Hall. now apply Hall.
Qed.

Lemma filter_sort_by_key (q : float * A -> bool) l :
  Forall (fun y => is_nan (fst y) = false) l ->
  filter q (sort_by_key l) = sort_by_key (filter q l).
Proof.
  induction 1 as [|x t Hx Ht IH]; [reflexivity|].
  cbn [sort_by_key fold_right]. fold (sort_by_key t).
  rewrite filter_insert_by_key.
  - cbn [filter]. destruct (q x); [|exact IH].
    cbn [sort_by_key fold_right]. fold (sort_by_key (filter q t)). now rewrite IH.
  - exact Hx.
  - now rewrite sort_by_key_perm.
  - now apply sort_by_key_sorted.
Qed.
End SortedLists.

Lemma with_keys_own (ps : list (float * record)) :
  Forall (fun p => fst p = key_of (snd p)) ps -> with_keys (map snd ps) = ps.
Proof.
  induction 1 as [|[k r] t Hp _ IH]; [reflexivity|].
  cbn in Hp. subst k. unfold with_keys in *. cbn [map]. now rewrite IH.
Qed.

Lemma with_keys_nan_free (l : list record) :
  Forall (fun r => is_nan (key_of r) = false) l ->
  Forall (fun y : float * record => is_nan (fst y) = false) (with_keys l).
Proof.
  intros H. unfold with_keys. apply Forall_forall. intros p Hp.
  apply in_map_iff in Hp as (r & <- & Hr). rewrite Forall_forall in H. now apply H.
Qed.

(** Sorting a sorted list of records changes nothing. *)
Lemma sorted_records_idem (l : list record) :
  Forall (fun r => is_nan (key_of r) = false) l ->
  sorted_records (sorted_records l) = sorted_records l.
Proof.
  intros H. unfold sorted_records at 1 3.
  unfold sorted_records. rewrite with_keys_own by apply keyed_pairs_own.
  rewrite sort_by_key_sorted_id; [reflexivity|].
  apply sort_by_key_sorted. now apply with_keys_nan_free.
Qed.

Lemma with_keys_filter (p : record -> bool) (l : list record) :
  with_keys (filter p l) = filter (fun kr => p (snd kr)) (with_keys l).
Proof.
  unfold with_keys. induction l as [|r t IH]; [reflexivity|].
  cbn [filter map snd]. destruct (p r); cbn [map]; now rewrite IH.
Qed.

Lemma map_snd_filter (p : record -> bool) (ps : list (float * record)) :
  filter p (map snd ps) = map snd (filter (fun kr => p (snd kr)) ps).
Proof.
  induction ps as [|q t IH]; [reflexivity|].
  cbn [filter map]. destruct (p (snd q)); cbn [map]; now rewrite IH.
Qed.

(** Selecting records and sorting them may be done in either order. *)
Lemma filter_sorted_records (p : record -> bool) (l : list record) :
  Forall (fun r => is_nan (key_of r) = false) l ->
  filter p (sorted_records l) = sorted_records (filter p l).
Proof.
  intros H. unfold sorted_records.
  rewrite map_snd_filter, filter_sort_by_key by now apply with_keys_nan_free.
  now rewrite with_keys_filter.
Qed.

Lemma filter_all {A} (p : A -> bool) (l : list A) :
  Forall (fun a => p a = true) l -> filter p l = l.
Proof.
  induction 1 as [|a t Ha _ IH]; [reflexivity|]. cbn. now rewrite Ha, IH.
Qed.

Lemma nan_free_perm (l l' : list record) :
  Permutation l l' ->
  Forall (fun r => is_nan (key_of r) = false) l ->
  Forall (fun r => is_nan (key_of r) = false) l'.
Proof.
  intros HP H. apply Forall_forall. intros r Hr. rewrite Forall_forall in H.
  apply H. eapply Permutation_in; [symmetry; exact HP | exact Hr].
Qed.

(** X9. Filtering a returned list once more with the same mapping returns it
    unchanged (the keys being numbers, so that they are ordered). *)
Theorem filtering_again_returns_the_same
    (data : list record) (filters : list (string * value))
    (log : list log_record) (out : list record) :
  filter_bicycle_data data filters = (log, Return out) ->
  Forall (fun r => is_nan (key_of r) = false) out ->
  snd (filter_bicycle_data out filters) = Return out.
Proof.
  intros H Hnan. apply filter_returns_inv in H as (E & HR & HK).
  assert (HP : Permutation (survivors data filters) out)
    by (rewrite E; apply sorted_records_perm).
  assert (Hsub : forall r, In r out -> In r data /\ matches r filters = true).
  { intros r Hr. apply (Permutation_in _ (Permutation_sym HP)) in Hr.
    now apply filter_In in Hr. }
  assert (Hs : survivors out filters = out).
  { unfold survivors. apply filter_all. apply Forall_forall. intros r Hr.
    now apply Hsub. }
  destruct (filter_returns_intro out filters) as [log' H'].
  - apply Forall_forall. intros r Hr. rewrite Forall_forall in HR.
    apply HR. now apply Hsub.
  - rewrite Hs. apply Forall_forall. intros r Hr. rewrite Forall_forall in HK.
    apply HK. eapply Permutation_in; [symmetry; exact HP | exact Hr].
  - rewrite H'. cbn [snd]. rewrite Hs. f_equal.
    rewrite E at 1. rewrite sorted_records_idem; [now symmetry|].
    eapply nan_free_perm; [symmetry; exact HP | exact Hnan].
Qed.

Lemma filtering_again_returns_the_same_witness :
  filter_bicycle_data [[("score", VInt 20)]; [("score", VInt 5)]] []
  = ([(INFO, "Filtered 2 items down to 2 items")],
     Return [[("score", VInt 5)]; [("score", VInt 20)]])
  /\ Forall (fun r => is_nan (key_of r) = false) [[("score", VInt 5)]; [("score", VInt 20)]]
  /\ snd (filter_bicycle_data [[("score", VInt 5)]; [("score", VInt 20)]] [])
     = Return [[("score", VInt 5)]; [("score", VInt 20)]].
Proof.
  assert (H1 : filter_bicycle_data [[("score", VInt 20)]; [("score", VInt 5)]] []
               = ([(INFO, "Filtered 2 items down to 2 items")],
                  Return [[("score", VInt 5)]; [("score", VInt 20)]]))
    by (vm_compute; reflexivity).
  assert (H2 : Forall (fun r => is_nan (key_of r) = false)
                 [[("score", VInt 5)]; [("score", VInt 20)]]) by (repeat constructor).
  split; [exact H1|]. split; [exact H2|].
  exact (filtering_again_returns_the_same _ _ _ _ H1 H2).
Defined.

Lemma matches_app (item : record) (f g : list (string * value)) :
  matches item (f ++ g)%list = matches item f && matches item g.
Proof.
  unfold matches. rewrite item_matches_app.
  destruct (_item_matches_filters item f) as [l1 [b|e]]; [|reflexivity].
  cbn [bind snd]. destruct b; cbn [andb].
  - now destruct (_item_matches_filters item g) as [l2 [b|e]].
  - reflexivity.
Qed.

Lemma survivors_app (data : list record) (f g : list (string * value)) :
  survivors data (f ++ g)%list = survivors (survivors data f) g.
Proof.
  unfold survivors. induction data as [|r t IH]; [reflexivity|].
  cbn [filter]. rewrite matches_app.
  destruct (matches r f); cbn [andb filter]; [|exact IH].
  destruct (matches r g); now rewrite IH.
Qed.

(** X10. Filtering in two steps, first with a mapping [f] and then the
    result with a mapping [g], returns what one call with the entries of [f]
    followed by those of [g] returns (the keys being numbers). *)
Theorem filtering_in_two_steps
    (data : list record) (f g : list (string * value))
    (log1 log2 : list log_record) (mid out : list record) :
  filter_bicycle_data data f = (log1, Return mid) ->
  filter_bicycle_data mid g = (log2, Return out) ->
  Forall (fun r => is_nan (key_of r) = false) mid ->
  snd (filter_bicycle_data data (f ++ g)%list) = Return out.
Proof.
  intros H1 H2 Hnan.
  apply filter_returns_inv in H1 as (E1 & HR1 & HK1).
  apply filter_returns_inv in H2 as (E2 & HR2 & _).
  assert (HP : Permutation (survivors data f) mid)
    by (rewrite E1; apply sorted_records_perm).
  assert (Hn : Forall (fun r => is_nan (key_of r) = false) (survivors data f))
    by (eapply nan_free_perm; [symmetry; exact HP | exact Hnan]).
  destruct (filter_returns_intro data (f ++ g)%list) as [log H].
  - apply Forall_forall. intros r Hr. rewrite Forall_forall in HR1.
    destruct (HR1 r Hr) as (l & b & Hb). rewrite item_matches_app, Hb.
    destruct b.
    + assert (Hm : In r mid).
      { apply (Permutation_in _ HP). apply filter_In. split; [exact Hr|].
        unfold matches. now rewrite Hb. }
      rewrite Forall_forall in HR2. destruct (HR2 r Hm) as (l' & b' & ->).
      do 2 eexists. reflexivity.
    + do 2 eexists. reflexivity.
  - rewrite survivors_app. apply Forall_forall. intros r Hr.
    apply filter_In in Hr as [Hr _]. rewrite Forall_forall in HK1. now apply HK1.
  - rewrite H. cbn [snd]. f_equal. rewrite survivors_app, E2, E1.
    unfold survivors at 3. rewrite filter_sorted_records by exact Hn.
    rewrite sorted_records_idem; [reflexivity|].
    apply Forall_forall. intros r Hr. apply filter_In in Hr as [Hr _].
    rewrite Forall_forall in Hn. now apply Hn.
Qed.

Lemma filtering_in_two_steps_witness :
  filter_bicycle_data
    [[("brand", VStr "Bell"); ("cost", VStr "$300"); ("score", VInt 9)];
     [("brand", VStr "Giro"); ("cost", VStr "$50"); ("score", VInt 12)];
     [("brand", VStr "bell"); ("cost", VStr "$70"); ("score", VInt 7)]]
    [("brand", VStr "BELL")]
  = ([(INFO, "Filtered 3 items down to 2 items")],
     Return [[("brand", VStr "bell"); ("cost", VStr "$70"); ("score", VInt 7)];
             [("brand", VStr "Bell"); ("cost", VStr "$300"); ("score", VInt 9)]])
  /\ filter_bicycle_data
       [[("brand", VStr "bell"); ("cost", VStr "$70"); ("score", VInt 7)];
        [("brand", VStr "Bell"); ("cost", VStr "$300"); ("score", VInt 9)]]
       [("cost", VInt 100)]
     = ([(INFO, "Filtered 2 items down to 1 items")],
        Return [[("brand", VStr "bell"); ("cost", VStr "$70"); ("score", VInt 7)]])
  /\ Forall (fun r => is_nan (key_of r) = false)
       [[("brand", VStr "bell"); ("cost", VStr "$70"); ("score", VInt 7)];
        [("brand", VStr "Bell"); ("cost", VStr "$300"); ("score", VInt 9)]]
  /\ snd (filter_bicycle_data
            [[("brand", VStr "Bell"); ("cost", VStr "$300"); ("score", VInt 9)];
             [("brand", VStr "Giro"); ("cost", VStr "$50"); ("score", VInt 12)];
             [("brand", VStr "bell"); ("cost", VStr "$70"); ("score", VInt 7)]]
            ([("brand", VStr "BELL")] ++ [("cost", VInt 100)])%list)
     = Return [[("brand", VStr "bell"); ("cost", VStr "$70"); ("score", VInt 7)]].
Proof.
  assert (H1 : filter_bicycle_data
    [[("brand", VStr "Bell"); ("cost", VStr "$300"); ("score", VInt 9)];
     [("brand", VStr "Giro"); ("cost", VStr "$50"); ("score", VInt 12)];
     [("brand", VStr "bell"); ("cost", VStr "$70"); ("score", VInt 7)]]
    [("brand", VStr "BELL")]
  = ([(INFO, "Filtered 3 items down to 2 items")],
     Return [[("brand", VStr "bell"); ("cost", VStr "$70"); ("score", VInt 7)];
             [("brand", VStr "Bell"); ("cost", VStr "$300"); ("score", VInt 9)]]))
    by (vm_compute; reflexivity).
  assert (H2 : filter_bicycle_data
       [[("brand", VStr "bell"); ("cost", VStr "$70"); ("score", VInt 7)];
        [("brand", VStr "Bell"); ("cost", VStr "$300"); ("score", VInt 9)]]
       [("cost", VInt 100)]
     = ([(INFO, "Filtered 2 items down to 1 items")],
        Return [[("brand", VStr "bell"); ("cost", VStr "$70"); ("score", VInt 7)]]))
    by (vm_compute; reflexivity).
  assert (H3 : Forall (fun r => is_nan (key_of r) = false)
       [[("brand", VStr "bell"); ("cost", VStr "$70"); ("score", VInt 7)];
        [("brand", VStr "Bell"); ("cost", VStr "$300"); ("score", VInt 9)]])
    by (repeat constructor).
  split; [exact H1|]. split; [exact H2|]. split; [exact H3|].
  exact (filtering_in_two_steps _ _ _ _ _ _ _ H1 H2 H3).
Defined.

(** ** What the extraction returns and logs *)

Lemma json_loads_silent (s : string) : fst (json_loads s) = [].
Proof.
  unfold json_loads. destruct (scan_once _ _) as [v r | m k | |]; try reflexivity.
  now destruct (skip_ws r).
Qed.

(** The whole of what [fetch_bicycle_data] does with a body received. *)
Lemma fetch_body (url raw : string) :
  fetch_bicycle_data url (Return raw) =
  match re_search array_pattern raw with
  | None =>
      ([(INFO, "Fetching data from " ++ url)],
       Raise (BicycleDataError "Could not find bicycleDataRaw in JS response" None))
  | Some None => ([(INFO, "Fetching data from " ++ url)], Raise TypeError)
  | Some (Some array_text) =>
      match snd (json_loads (repair array_text)) with
      | Return data =>
          match snd (py_len data) with
          | Return n =>
              ([(INFO, "Fetching data from " ++ url);
                (INFO, "Successfully fetched " ++ str_of_nat n ++ " helmet records")],
               Return data)
          | Raise e => ([(INFO, "Fetching data from " ++ url)], Raise e)
          end
      | Raise e =>
          ([(INFO, "Fetching data from " ++ url)],
           if is_json_decode_error e
           then Raise (BicycleDataError "Failed to parse JSON: " (Some e))
           else Raise e)
      end
  end.
Proof.
  unfold fetch_bicycle_data, repair, quote_keys, requote_strings.
  cbn [emit bind].
  destruct (re_search array_pattern raw) as [[t|]|]; try reflexivity.
  cbn [lift]. rewrite bind_ret_l.
  pose proof (json_loads_silent (re_sub quote_pattern in_dquotes
                                   (re_sub key_pattern in_dquotes t))) as Hs.
  destruct (json_loads _) as [l [data|e]] eqn:HJ; cbn in Hs; subst l.
  - cbn [bind emit ret snd]. destruct data; reflexivity.
  - assert (He : snd (json_loads (re_sub quote_pattern in_dquotes
                                     (re_sub key_pattern in_dquotes t))) = Raise e)
      by now rewrite HJ.
    apply json_loads_exn in He as [(m & pos & ->) | [-> | ->]]; reflexivity.
Qed.

(** X11. When [fetch_bicycle_data] returns, the server had answered with a
    body, the value returned is a list, and exactly two records were logged,
    both at level INFO: the address before the request, and the number of
    elements of the list after decoding. *)
Theorem fetch_returns_a_list_and_logs_its_length
    (url : string) (response : outcome string) (log : list log_record) (data : value) :
  fetch_bicycle_data url response = (log, Return data) ->
  exists raw l,
    response = Return raw /\ data = VList l
    /\ log = [(INFO, "Fetching data from " ++ url);
              (INFO, "Successfully fetched " ++ str_of_nat (List.length l)
                       ++ " helmet records")].
Proof.
  destruct response as [raw|e].
  - intros H. exists raw.
    destruct (fetch_outcomes url raw) as [(l & Hl) | [(m & c & Hc) | Ho]];
      rewrite H in *; cbn [snd] in *; try discriminate.
    inversion Hl; subst data. exists l. split; [reflexivity|]. split; [reflexivity|].
    rewrite fetch_body in H.
    destruct (re_search array_pattern raw) as [[t|]|]; try discriminate.
    destruct (snd (json_loads (repair t))) as [d|e]; [|destruct (is_json_decode_error e); discriminate].
    destruct d; cbn in H; try discriminate. inversion H; subst. reflexivity.
  - unfold fetch_bicycle_data. cbn [emit bind try_except find_handler].
    destruct (is_request_exception e); [discriminate|].
    destruct (is_json_decode_error e); discriminate.
Qed.

Lemma fetch_returns_a_list_and_logs_its_length_witness :
  fetch_bicycle_data URL (Return "const bicycleDataRaw = [{a: 1}, {}];")
  = ([(INFO, "Fetching data from https://www.helmet.beam.vt.edu/js/bicycleData.js");
      (INFO, "Successfully fetched 2 helmet records")],
     Return (VList [VDict [("a", VInt 1)]; VDict []]))
  /\ exists raw l,
       Return "const bicycleDataRaw = [{a: 1}, {}];" = Return raw
       /\ VList [VDict [("a", VInt 1)]; VDict []] = VList l
       /\ [(INFO, "Fetching data from https://www.helmet.beam.vt.edu/js/bicycleData.js");
           (INFO, "Successfully fetched 2 helmet records")]
          = [(INFO, "Fetching data from " ++ URL);
             (INFO, "Successfully fetched " ++ str_of_nat (List.length l)
                      ++ " helmet records")].
Proof.
  assert (H : fetch_bicycle_data URL (Return "const bicycleDataRaw = [{a: 1}, {}];")
              = ([(INFO, "Fetching data from https://www.helmet.beam.vt.edu/js/bicycleData.js");
                  (INFO, "Successfully fetched 2 helmet records")],
                 Return (VList [VDict [("a", VInt 1)]; VDict []])))
    by (vm_compute; reflexivity).
  split; [exact H|].
  exact (fetch_returns_a_list_and_logs_its_length _ _ _ _ H).
Defined.

(** X12. When [fetch_bicycle_data] raises, the only record logged is the one
    that announces the request; and when the request itself failed with a
    RequestException, the error raised is a BicycleDataError that carries
    this failure as its cause. *)
Theorem fetch_failure_is_logged_once
    (url : string) (response : outcome string) (log : list log_record) (e : exn) :
  fetch_bicycle_data url response = (log, Raise e) ->
  log = [(INFO, "Fetching data from " ++ url)]
  /\ (forall cause, response = Raise cause -> is_request_exception cause = true ->
        e = BicycleDataError "Failed to fetch data: " (Some cause)).
Proof.
  destruct response as [raw|e0].
  - rewrite fetch_body. intros H. split; [|discriminate].
    destruct (re_search array_pattern raw) as [[t|]|]; try (now inversion H).
    destruct (snd (json_loads (repair t))) as [d|e1]; [|now inversion H].
    destruct (snd (py_len d)); now inversion H.
  - unfold fetch_bicycle_data. cbn [emit bind try_except find_handler].
    intros H. split.
    + destruct (is_request_exception e0); [now inversion H|].
      destruct (is_json_decode_error e0); now inversion H.
    + intros cause Hc Hr. inversion Hc; subst cause. rewrite Hr in H.
      now inversion H.
Qed.

Lemma fetch_failure_is_logged_once_witness :
  fetch_bicycle_data URL (Raise RequestException)
  = ([(INFO, "Fetching data from https://www.helmet.beam.vt.edu/js/bicycleData.js")],
     Raise (BicycleDataError "Failed to fetch data: " (Some RequestException)))
  /\ [(INFO, "Fetching data from https://www.helmet.beam.vt.edu/js/bicycleData.js")]
     = [(INFO, "Fetching data from " ++ URL)].
Proof.
  assert (H : fetch_bicycle_data URL (Raise RequestException)
              = ([(INFO, "Fetching data from https://www.helmet.beam.vt.edu/js/bicycleData.js")],
                 Raise (BicycleDataError "Failed to fetch data: " (Some RequestException))))
    by (vm_compute; reflexivity).
  split; [exact H|].
  exact (proj1 (fetch_failure_is_logged_once _ _ _ _ H)).
Defined.

(** ** The layout of the statement that the search accepts *)

Lemma rep_lazy_to_end_mark {R} (whole body rest : string)
    (k : string -> option string -> option R) :
  has_end_mark body = false -> starts_with (Ascii.eqb ";") rest = false ->
  rep_lazy any_char 0 (body ++ rest) (close_array whole k)
  = rep_lazy any_char 0 rest (close_array whole k).
Proof.
  intros Hb Hr. induction body as [|c t IH]; [reflexivity|].
  cbn [has_end_mark] in Hb. apply orb_false_iff in Hb as [Hc Ht].
  cbn [append rep_lazy pred].
  assert (E : close_array whole k (String c (t ++ rest)) = None).
  { unfold close_array. cbn [strip_prefix].
    destruct (Ascii.eqb "]" c) eqn:Ec; [|reflexivity].
    rewrite Ascii.eqb_sym in Ec. rewrite Ec in Hc. cbn [andb] in Hc.
    destruct t as [|d t']; cbn [append].
    - destruct rest as [|d r']; cbn [strip_prefix]; [reflexivity|].
      cbn [starts_with] in Hr. now rewrite Hr.
    - cbn [strip_prefix]. cbn [starts_with] in Hc. now rewrite Hc. }
  rewrite E. unfold any_char at 1. now apply IH.
Qed.

Lemma space_not_letter (c : ascii) (l : ascii) :
  is_space c = true -> is_space l = false -> Ascii.eqb l c = false.
Proof.
  intros Hc Hl. destruct (Ascii.eqb l c) eqn:E; [|reflexivity].
  apply Ascii.eqb_eq in E. subst. congruence.
Qed.

Lemma span_space (w r : string) :
  forallb_str is_space w = true -> starts_with is_space r = false ->
  span is_space (w ++ r) = (w, r).
Proof. apply span_app. Qed.

(** The pattern, anchored at a statement laid out with any whitespace. *)
Lemma match_here_array_layout (w1 w2 w3 body suffix : string) :
  is_empty w1 = false ->
  forallb_str is_space w1 = true -> forallb_str is_space w2 = true ->
  forallb_str is_space w3 = true ->
  has_end_mark body = false ->
  match_here array_pattern
    ("const" ++ w1 ++ "bicycleDataRaw" ++ w2 ++ "=" ++ w3 ++ "[" ++ body ++ "];" ++ suffix)
  = Some (suffix, Some ("[" ++ body ++ "]")).
Proof.
  intros Hne H1 H2 H3 Hb.
  unfold match_here, array_pattern.
  cbn [rmatch append strip_prefix].
  change (Ascii.eqb "c" "c") with true. change (Ascii.eqb "o" "o") with true.
  change (Ascii.eqb "n" "n") with true. change (Ascii.eqb "s" "s") with true.
  change (Ascii.eqb "t" "t") with true. cbv iota.
  rewrite rep_greedy_span.
  2: { intros c t Hc. cbn [strip_prefix]. now rewrite (space_not_letter c "b" Hc eq_refl). }
  rewrite span_space by (assumption || reflexivity). cbn [fst snd].
  assert (L1 : (1 <=? String.length w1)%nat = true).
  { destruct w1; [discriminate | reflexivity]. }
  rewrite L1.
  repeat match goal with
         | |- context [Ascii.eqb ?a ?a] => change (Ascii.eqb a a) with true
         end.
  cbv iota.
  rewrite rep_greedy_span.
  2: { intros c t Hc. cbn [strip_prefix]. now rewrite (space_not_letter c "=" Hc eq_refl). }
  rewrite span_space by (assumption || reflexivity). cbn [fst snd Nat.leb].
  cbn [strip_prefix]. change (Ascii.eqb "=" "=") with true. cbv iota.
  rewrite rep_greedy_span.
  2: { intros c t Hc. cbn [strip_prefix]. now rewrite (space_not_letter c "[" Hc eq_refl). }
  rewrite span_space by (assumption || reflexivity). cbn [fst snd Nat.leb].
  cbn [strip_prefix]. change (Ascii.eqb "[" "[") with true. cbv iota.
  set (whole := String "[" (body ++ "];" ++ suffix)).
  set (k := fun (s2 : string) (g : option string) => Some (s2, g)).
  transitivity (rep_lazy any_char 0 (body ++ "];" ++ suffix) (close_array whole k)).
  { apply f_equal. reflexivity. }
  rewrite rep_lazy_to_end_mark by (assumption || reflexivity).
  apply rep_lazy_here. unfold close_array, k.
  change (strip_prefix "]" ("];" ++ suffix)) with (Some (String ";" suffix)).
  cbv iota.
  change (strip_prefix ";" (String ";" suffix)) with (Some suffix).
  cbv iota. do 3 f_equal. subst whole.
  replace (String "[" (body ++ "];" ++ suffix))
    with (("[" ++ body ++ "]") ++ String ";" suffix)
    by (cbn [append]; now rewrite app_assoc_str).
  apply take_str_app.
Qed.

Lemma re_search_here (r : regex) (s rest : string) (g : option string) :
  match_here r s = Some (rest, g) -> re_search r s = Some g.
Proof. intros H. destruct s; cbn [re_search]; now rewrite H. Qed.

(** X13. The search accepts any whitespace (at least one character after the
    keyword) between the keyword, the identifier, the equals sign and the
    opening bracket, and captures the text from that bracket up to the first
    closing bracket that a semicolon follows: closing brackets inside the
    array are kept, and nothing after that semicolon is looked at. *)
Theorem search_tolerates_layout_and_inner_brackets
    (w1 w2 w3 body suffix : string) :
  is_empty w1 = false ->
  forallb_str is_space w1 = true -> forallb_str is_space w2 = true ->
  forallb_str is_space w3 = true ->
  has_end_mark body = false ->
  re_search array_pattern
    ("const" ++ w1 ++ "bicycleDataRaw" ++ w2 ++ "=" ++ w3 ++ "[" ++ body ++ "];" ++ suffix)
  = Some (Some ("[" ++ body ++ "]")).
Proof.
  intros Hne H1 H2 H3 Hb. eapply re_search_here.
  now apply match_here_array_layout.
Qed.

Lemma search_tolerates_layout_and_inner_brackets_witness :
  re_search array_pattern
    ("const" ++ String newline " " ++ "bicycleDataRaw" ++ EmptyString ++ "=" ++ " "
       ++ "[" ++ "{sizes: ['S', 'M']}" ++ "];" ++ " var other = [];")
  = Some (Some ("[" ++ "{sizes: ['S', 'M']}" ++ "]")).
Proof.
  apply (search_tolerates_layout_and_inner_brackets
           (String newline " ") EmptyString " " "{sizes: ['S', 'M']}" " var other = [];");
    reflexivity.
Defined.

Lemma rest_of_refl (s : string) : rest_of s s.
Proof. now exists EmptyString. Qed.

Lemma rest_of_cons (c : ascii) (s' s : string) : rest_of s' s -> rest_of s' (String c s).
Proof. intros [p ->]. now exists (String c p). Qed.

Lemma rest_of_trans (a b c : string) : rest_of a b -> rest_of b c -> rest_of a c.
Proof. intros [p ->] [q ->]. exists (q ++ p). now rewrite app_assoc_str. Qed.

Lemma rep_greedy_rest {R} (cls : ascii -> bool) (min : nat) (s : string)
    (k : string -> option R) (res : R) :
  rep_greedy cls min s k = Some res -> exists s', k s' = Some res /\ rest_of s' s.
Proof.
  revert min. induction s as [|c s IH]; intros min H.
  - cbn in H. destruct min; [|discriminate]. exists EmptyString.
    split; [exact H | apply rest_of_refl].
  - cbn [rep_greedy] in H.
    assert (Hstop : match min with O => k (String c s) | S _ => None end = Some res ->
                    exists s', k s' = Some res /\ rest_of s' (String c s)).
    { destruct min; [|discriminate]. intros Hk. exists (String c s).
      split; [exact Hk | apply rest_of_refl]. }
    destruct (cls c); [|now apply Hstop].
    destruct (rep_greedy cls (pred min) s k) as [r|] eqn:E; [|now apply Hstop].
    inversion H; subst r. destruct (IH _ E) as (s' & Hk & HL).
    exists s'. split; [exact Hk | now apply rest_of_cons].
Qed.

Lemma rep_lazy_rest {R} (cls : ascii -> bool) (min : nat) (s : string)
    (k : string -> option R) (res : R) :
  rep_lazy cls min s k = Some res -> exists s', k s' = Some res /\ rest_of s' s.
Proof.
  revert min. induction s as [|c s IH]; intros min H.
  - cbn in H. destruct min; [|discriminate].
    destruct (k EmptyString) eqn:E; [|discriminate]. inversion H; subst.
    exists EmptyString. split; [exact E | apply rest_of_refl].
  - cbn [rep_lazy] in H.
    destruct (match min with O => k (String c s) | S _ => None end) as [r|] eqn:E.
    + inversion H; subst r. destruct min; [|discriminate].
      exists (String c s). split; [exact E | apply rest_of_refl].
    + destruct (cls c); [|discriminate]. destruct (IH _ H) as (s' & Hk & HL).
      exists s'. split; [exact Hk | now apply rest_of_cons].
Qed.

Lemma strip_prefix_rest (p s s' : string) : strip_prefix p s = Some s' -> s = p ++ s'.
Proof.
  revert s. induction p as [|a p IH]; intros s H.
  - cbn in H. now inversion H.
  - destruct s as [|b s]; [discriminate|]. cbn in H.
    destruct (Ascii.eqb a b) eqn:E; [|discriminate].
    apply Ascii.eqb_eq in E. subst b. cbn. now rewrite (IH s H).
Qed.

Lemma has_end_mark_rest (s' s : string) :
  rest_of s' s -> has_end_mark s' = true -> has_end_mark s = true.
Proof.
  intros [p ->] H. induction p as [|c p IH]; [exact H|].
  cbn [append has_end_mark]. rewrite IH. apply orb_true_r.
Qed.

(** A match of the pattern ends with a closing bracket and a semicolon. *)
Lemma match_here_array_end (s rest : string) (g : option string) :
  match_here array_pattern s = Some (rest, g) -> has_end_mark s = true.
Proof.
  unfold match_here, array_pattern. cbn [rmatch]. intros H.
  destruct (strip_prefix "const" s) as [s1|] eqn:H1; [|discriminate].
  apply rep_greedy_rest in H as (s2 & H & R2).
  destruct (strip_prefix "bicycleDataRaw" s2) as [s3|] eqn:H3; [|discriminate].
  apply rep_greedy_rest in H as (s4 & H & R4).
  destruct (strip_prefix "=" s4) as [s5|] eqn:H5; [|discriminate].
  apply rep_greedy_rest in H as (s6 & H & R6).
  destruct (strip_prefix "[" s6) as [x|] eqn:Hx; [|discriminate].
  apply rep_lazy_rest in H as (s7 & H & R7).
  destruct (strip_prefix "]" s7) as [s8|] eqn:H8; [|discriminate].
  destruct (strip_prefix ";" s8) as [s9|] eqn:H9; [|discriminate].
  apply strip_prefix_rest in H1, H3, H5, Hx, H8, H9.
  assert (E7 : has_end_mark s7 = true) by (subst s7 s8; reflexivity).
  assert (Rx : rest_of x s6) by (now exists "[").
  assert (R5 : rest_of s5 s4) by (now exists "=").
  assert (R3 : rest_of s3 s2) by (now exists "bicycleDataRaw").
  assert (R1 : rest_of s1 s) by (now exists "const").
  apply (has_end_mark_rest s7); [|exact E7].
  eapply rest_of_trans; [exact R7|]. eapply rest_of_trans; [exact Rx|].
  eapply rest_of_trans; [exact R6|]. eapply rest_of_trans; [exact R5|].
  eapply rest_of_trans; [exact R4|]. eapply rest_of_trans; [exact R3|].
  eapply rest_of_trans; [exact R2|]. exact R1.
Qed.

Lemma re_search_array_end (s : string) (g : option string) :
  re_search array_pattern s = Some g -> has_end_mark s = true.
Proof.
  induction s as [|c s IH]; cbn [re_search].
  - destruct (match_here array_pattern EmptyString) as [[r g']|] eqn:E; [|discriminate].
    intros _. now apply match_here_array_end in E.
  - destruct (match_here array_pattern (String c s)) as [[r g']|] eqn:E.
    + intros _. now apply match_here_array_end in E.
    + intros H. apply (has_end_mark_rest s); [|now apply IH].
      apply rest_of_cons, rest_of_refl.
Qed.

(** X14. A body in which no closing bracket is directly followed by a
    semicolon holds no match of the pattern: the array is not found,
    whatever else the body holds, and the extraction raises its error after
    logging the request. So an array whose statement ends without a
    semicolon, or with whitespace before it, is not found. *)
Theorem array_without_end_mark_is_not_found (url raw : string) :
  has_end_mark raw = false ->
  re_search array_pattern raw = None
  /\ fetch_bicycle_data url (Return raw)
     = ([(INFO, "Fetching data from " ++ url)],
        Raise (BicycleDataError "Could not find bicycleDataRaw in JS response" None)).
Proof.
  intros H.
  assert (E : re_search array_pattern raw = None).
  { destruct (re_search array_pattern raw) as [g|] eqn:E; [|reflexivity].
    apply re_search_array_end in E. congruence. }
  split; [exact E|]. now rewrite fetch_body, E.
Qed.

Lemma array_without_end_mark_is_not_found_witness :
  has_end_mark "const bicycleDataRaw = [{brand: 'Giro'}]" = false
  /\ has_end_mark "const bicycleDataRaw = [{brand: 'Giro'}] ;" = false
  /\ re_search array_pattern "const bicycleDataRaw = [{brand: 'Giro'}] ;" = None.
Proof.
  split; [reflexivity|]. split; [reflexivity|].
  apply (array_without_end_mark_is_not_found URL
           "const bicycleDataRaw = [{brand: 'Giro'}] ;").
  reflexivity.
Defined.

(** ** Literals in the syntax of JSON *)











Section Classes.
Variable P : ascii -> bool.
Variables (kq : bool) (q : ascii).
Hypothesis P_word : forall c, is_word c = true -> P c = true.
Hypothesis P_plain : forall c, plain_char c = true -> P c = true.
Hypothesis P_q : P q = true.
Hypothesis P_dquote : P dquote = true.
Hypothesis P_punct :
  P "{" = true /\ P "}" = true /\ P ":" = true /\ P "," = true /\ P " " = true.





End Classes.









(** ** The report *)

Lemma title_char_ascii (c : ascii) : is_ascii c = true -> exists u, title_char c = Some u.
Proof.
  destruct c as [[] [] [] [] [] [] [] []]; intros H; try discriminate H;
    eexists; reflexivity.
Qed.

Lemma capitalize_ascii (s : string) :
  starts_with (fun c => negb (is_ascii c)) s = false -> exists u, capitalize s = Some u.
Proof.
  destruct s as [|c t]; [eexists; reflexivity|].
  cbn [starts_with]. intros H. apply negb_false_iff in H.
  destruct (title_char_ascii c H) as [u Hu]. cbn [capitalize]. rewrite Hu. eauto.
Qed.

Lemma summary_lines_ascii (filters : list (string * value)) :
  Forall (fun e => starts_with (fun c => negb (is_ascii c)) (fst e) = false) filters ->
  exists ls, summary_lines filters = Some ls /\ List.length ls = List.length filters.
Proof.
  induction 1 as [|[k v] rest Hk _ (ls & IH & HL)]; [now exists []|].
  cbn [fst] in Hk. destruct (capitalize_ascii k Hk) as [u Hu].
  cbn [summary_lines summary_line]. rewrite Hu, IH.
  eexists. split; [reflexivity|]. cbn. now rewrite HL.
Qed.

Lemma summary_lines_length (filters : list (string * value)) (ls : list string) :
  summary_lines filters = Some ls -> List.length ls = List.length filters.
Proof.
  revert ls. induction filters as [|e rest IH]; intros ls H.
  - now inversion H.
  - cbn [summary_lines] in H. destruct (summary_line e); [|discriminate].
    destruct (summary_lines rest) as [ls'|]; [|discriminate].
    inversion H; subst. cbn. now rewrite (IH ls' eq_refl).
Qed.

Lemma print_item_length (i : nat) (item : record) :
  List.length (print_item i item) = if shows_certifications item then 5 else 4.
Proof.
  unfold print_item, shows_certifications. cbn [List.length]. rewrite length_app.
  destruct (dict_get "certifications" item) as [v|]; [|reflexivity].
  now destruct (truthy v).
Qed.

Lemma print_items_length (i : nat) (l : list record) :
  List.length (print_items i l)
  = 4 * List.length l + List.length (filter shows_certifications l).
Proof.
  revert i. induction l as [|r t IH]; intros i; [reflexivity|].
  cbn [print_items filter]. rewrite length_app, print_item_length, IH.
  destruct (shows_certifications r); cbn [List.length]; lia.
Qed.

Lemma print_items_app (i : nat) (a b : list record) :
  print_items i (a ++ b)
  = List.app (print_items i a) (print_items (i + List.length a) b).
Proof.
  revert i. induction a as [|r t IH]; intros i.
  - cbn. now rewrite Nat.add_0_r.
  - cbn [app print_items List.length]. rewrite IH, <- app_assoc.
    now rewrite Nat.add_succ_r.
Qed.

Lemma print_results_ascii
    (filtered_data : list record) (filters : list (string * value)) :
  Forall (fun e => starts_with (fun c => negb (is_ascii c)) (fst e) = false) filters ->
  exists report, print_results filtered_data filters = Some report.
Proof.
  intros H. unfold print_results. destruct filtered_data as [|r t]; [eauto|].
  destruct filters as [|e rest]; [eauto|].
  destruct (summary_lines_ascii _ H) as (ls & -> & _). eauto.
Qed.

(** X16. For an empty result the report is its heading, a rule and one line
    that says that no helmet matches; the summary of the filters is not
    printed, whatever the mapping. For any result, the report is produced
    whenever no key of the mapping starts with a character beyond ASCII. *)
Theorem report_of_an_empty_result_has_no_summary (filters : list (string * value)) :
  print_results [] filters
  = Some [String newline "Filtered data (0 items):"; repeat_char "=" 60;
          "No helmets match your criteria."]
  /\ (Forall (fun e => starts_with (fun c => negb (is_ascii c)) (fst e) = false) filters ->
      forall filtered_data, exists report, print_results filtered_data filters = Some report).
Proof.
  split; [reflexivity|]. intros H filtered_data. now apply print_results_ascii.
Qed.

Lemma report_of_an_empty_result_has_no_summary_witness :
  Forall (fun e => starts_with (fun c => negb (is_ascii c)) (fst e) = false)
    [("cost", VInt 100); ("style", VStr "Road")]
  /\ exists report,
       print_results [[("brand", VStr "Bell")]]
         [("cost", VInt 100); ("style", VStr "Road")] = Some report.
Proof.
  assert (H : Forall (fun e => starts_with (fun c => negb (is_ascii c)) (fst e) = false)
                [("cost", VInt 100); ("style", VStr "Road")]) by (repeat constructor).
  split; [exact H|].
  exact (proj2 (report_of_an_empty_result_has_no_summary
                  [("cost", VInt 100); ("style", VStr "Road")]) H
               [[("brand", VStr "Bell")]]).
Defined.

(** X17. The report of a result that is not empty has the heading and a
    rule, one block for each record, the summary of the filters and the
    total: five lines, four more for each record, one more for each record
    whose certifications are shown, and one for each entry of the mapping
    (one line when the mapping is empty). The block of a record stands after
    the blocks of the records before it and bears the number of the record,
    counted from 1. The heading and the total both give the number of
    records. *)
Theorem report_has_a_block_for_each_record
    (filtered_data : list record) (filters : list (string * value))
    (report : list string) :
  filtered_data <> [] ->
  print_results filtered_data filters = Some report ->
  List.length report
  = 5 + 4 * List.length filtered_data
    + List.length (filter shows_certifications filtered_data)
    + Nat.max 1 (List.length filters)
  /\ (forall before item after,
         filtered_data = (before ++ item :: after)%list ->
         exists head tail,
           report = List.app head
                      (List.app (print_item (S (List.length before)) item) tail)
           /\ List.length head
              = 2 + 4 * List.length before
                + List.length (filter shows_certifications before))
  /\ hd_error report
     = Some (String newline ("Filtered data ("
                               ++ str_of_nat (List.length filtered_data) ++ " items):"))
  /\ nth_error report (List.length report - 2)
     = Some ("Total results: " ++ str_of_nat (List.length filtered_data) ++ " items").
Proof.
  intros Hne H. unfold print_results in H.
  destruct filtered_data as [|r0 t0] eqn:Ed; [contradiction|]. rewrite <- Ed in *.
  assert (Hd : match filtered_data with [] => false | _ => true end = true)
    by now rewrite Ed.
  clear Ed.
  set (summary := match filters with
                  | [] => Some ["No filters applied - showing all data"]
                  | _ => summary_lines filters
                  end) in H.
  destruct summary as [ls|] eqn:Es; [|destruct filtered_data; discriminate].
  assert (Hls : List.length ls = Nat.max 1 (List.length filters)).
  { subst summary. destruct filters as [|e rest].
    - now inversion Es.
    - rewrite (summary_lines_length _ _ Es). cbn [List.length]. lia. }
  assert (E : report =
              String newline ("Filtered data ("
                                ++ str_of_nat (List.length filtered_data) ++ " items):")
              :: repeat_char "=" 60
              :: List.app (print_items 1 filtered_data)
                   (String newline "FILTER SUMMARY:"
                    :: List.app ls
                         ["Total results: "
                            ++ str_of_nat (List.length filtered_data) ++ " items";
                          repeat_char "=" 60])).
  { destruct filtered_data; [discriminate|]. now inversion H. }
  clear H.
  assert (HL : List.length report
               = 5 + 4 * List.length filtered_data
                 + List.length (filter shows_certifications filtered_data)
                 + Nat.max 1 (List.length filters)).
  { rewrite E. cbn [List.length]. rewrite length_app. cbn [List.length].
    rewrite length_app, print_items_length, Hls. cbn [List.length]. lia. }
  split; [exact HL|]. split; [|split].
  - intros before item after Hsplit. rewrite E, Hsplit.
    rewrite print_items_app. cbn [print_items].
    exists (String newline ("Filtered data ("
                              ++ str_of_nat (List.length (before ++ item :: after)%list)
                              ++ " items):")
            :: repeat_char "=" 60 :: print_items 1 before).
    eexists. split.
    + cbn [app]. rewrite <- !app_assoc. reflexivity.
    + cbn [List.length]. rewrite print_items_length. lia.
  - rewrite E. reflexivity.
  - set (total := "Total results: " ++ str_of_nat (List.length filtered_data) ++ " items")
      in *.
    assert (E' : exists pre, report = List.app pre [total; repeat_char "=" 60]).
    { exists (List.app
                [String newline ("Filtered data ("
                                   ++ str_of_nat (List.length filtered_data) ++ " items):");
                 repeat_char "=" 60]
                (List.app (print_items 1 filtered_data)
                   (String newline "FILTER SUMMARY:" :: ls))).
      rewrite E. cbn [app]. rewrite <- !app_assoc. reflexivity. }
    destruct E' as [pre ->]. rewrite length_app. cbn [List.length].
    replace (List.length pre + 2 - 2) with (List.length pre) by lia.
    rewrite nth_error_app2 by lia. now rewrite Nat.sub_diag.
Qed.

Lemma report_has_a_block_for_each_record_witness :
  [[("brand", VStr "Bell"); ("certifications", VStr "MIPS")]; [("score", VInt 9)]] <> []
  /\ exists report,
       print_results
         [[("brand", VStr "Bell"); ("certifications", VStr "MIPS")]; [("score", VInt 9)]]
         [("cost", VInt 100)] = Some report
       /\ List.length report = 5 + 4 * 2 + 1 + Nat.max 1 1.
Proof.
  assert (H1 : [[("brand", VStr "Bell"); ("certifications", VStr "MIPS")];
                [("score", VInt 9)]] <> []) by discriminate.
  split; [exact H1|].
  eexists. split; [vm_compute; reflexivity|].
  refine (proj1 (report_has_a_block_for_each_record
                   [[("brand", VStr "Bell"); ("certifications", VStr "MIPS")];
                    [("score", VInt 9)]]
                   [("cost", VInt 100)] _ H1 _)).
  vm_compute. reflexivity.
Defined.

(** ** The program *)

Lemma main_filters_in (args : Namespace) (k : string) (v : value) :
  In (k, v) (main_filters args)
  <-> In (k, v) (vars args) /\ v <> VNone /\ k <> "verbose".
Proof.
  unfold main_filters. rewrite filter_In. cbn [fst snd].
  rewrite andb_true_iff, !negb_true_iff.
  split; intros [Hin H]; (split; [exact Hin|]).
  - destruct H as [Hn Hv]. split.
    + intros ->. discriminate.
    + intros ->. discriminate.
  - destruct H as [Hn Hv]. split.
    + destruct v; try reflexivity. contradiction.
    + unfold mem_str. cbn [existsb]. rewrite orb_false_r.
      apply String.eqb_neq. exact Hv.
Qed.

(** X18. The mapping that [main] hands to the filter holds the options that
    were given, in the order of their declaration, and never the option
    verbose; its keys are distinct and in ASCII. The value of a threshold
    field is a float, so that in a threshold comparison the side of the
    filter always converts: when the value of the record converts, the test
    answers the comparison and logs nothing. Without options the mapping is
    empty. *)
Theorem main_filters_are_the_options_given (args : Namespace) :
  (forall k v, In (k, v) (main_filters args)
               <-> In (k, v) (vars args) /\ v <> VNone /\ k <> "verbose")
  /\ main_filters args
     = filter (fun kv => negb (is_none (snd kv))) (removelast (vars args))
  /\ NoDup (map fst (main_filters args))
  /\ (forall k v, In (k, v) (main_filters args) ->
                  mem_str k MAX_THRESHOLD_FIELDS = true ->
                  exists x, v = VFloat x
                            /\ forall iv c, item_number k iv = ret c ->
                                  _check_threshold_filter iv v k = ret (float_le c x))
  /\ Forall (fun e => starts_with (fun c => negb (is_ascii c)) (fst e) = false)
       (main_filters args)
  /\ (forall b, main_filters (no_options b) = []).
Proof.
  split; [apply main_filters_in|].
  destruct args as [st co sc br ra da ce ve].
  split; [|split; [|split; [|split]]].
  - unfold main_filters, vars.
    destruct st, co, sc, br, ra, da, ce; reflexivity.
  - unfold main_filters, vars.
    destruct st, co, sc, br, ra, da, ce; cbn;
      repeat (constructor; [cbn; intuition discriminate|]); constructor.
  - intros k v Hin Hm. apply main_filters_in in Hin as (Hin & Hv & _).
    cbn in Hin.
    destruct (threshold_field_cases k Hm) as [-> | ->];
      repeat (destruct Hin as [E | Hin]; [inversion E; subst|]);
      try contradiction; try discriminate.
    + destruct co as [x|]; cbn [opt_value] in *; [|now contradiction Hv].
      exists x. split; [reflexivity|]. intros iv c Hc.
      rewrite check_threshold_unfold, Hc. reflexivity.
    + destruct sc as [x|]; cbn [opt_value] in *; [|now contradiction Hv].
      exists x. split; [reflexivity|]. intros iv c Hc.
      rewrite check_threshold_unfold, Hc. reflexivity.
  - apply Forall_forall. intros [k v] Hin. apply main_filters_in in Hin as (Hin & _ & _).
    cbn in Hin.
    repeat (destruct Hin as [E | Hin]; [inversion E; subst; reflexivity|]).
    contradiction.
  - reflexivity.
Qed.


Lemma as_records_inv (l : list value) (rs : list record) :
  as_records l = Some rs -> l = map VDict rs.
Proof.
  revert rs. induction l as [|v t IH]; intros rs H.
  - now inversion H.
  - destruct v; cbn in H; try discriminate.
    destruct (as_records t) as [ds|]; [|discriminate].
    inversion H; subst. cbn. now rewrite (IH ds eq_refl).
Qed.









